(** * simdpp/detail/cast.inl: the compile-time cast dispatcher

    A shallow embedding of [include/simdpp/detail/cast.inl].

    The header is template code, so two levels are modelled:
    - compile time: instantiating a template with type arguments either
      yields code or is rejected with the diagnostics of the static
      assertions that failed ([compile_result]);
    - run time: the code of an instantiation is a function on object
      representations (lists of bytes); [None] is undefined behaviour.

    What the header takes from headers that are not part of it (the vector
    and mask types, [sizeof], [size_tag], [unmask], [cmp_neq], [make_zero],
    the enumerators [CAST_MASK_*]) is a field of the classes [Arch] and
    [MaskCast]. *)

From Stdlib Require Import String Bool Arith NArith Lia List.
From Stdlib Require Import Strings.Byte.
Import ListNotations.

Local Open Scope string_scope.
Local Open Scope list_scope.

(** ** Types named by the header *)

(** Modelled from the spec: the vector types of [simdpp/types.h] (section 3,
    "Vector value": signed or unsigned integers of 8, 16, 32 or 64 bits and
    single or double floats). *)
Inductive vector_kind : Type :=
  | k_uint8 | k_uint16 | k_uint32 | k_uint64
  | k_int8 | k_int16 | k_int32 | k_int64
  | k_float32 | k_float64.

(** The six mask templates the header specialises [base_mask_vector_type]
    for. *)
Inductive mask_kind : Type :=
  | k_mask_int8 | k_mask_int16 | k_mask_int32 | k_mask_int64
  | k_mask_float32 | k_mask_float64.

(** A type argument [class T]: a vector [uint8<N>], a mask [mask_int8<N>],
    or any other type, known by its name. *)
Inductive type : Type :=
  | Vector (k : vector_kind) (N : nat)
  | Mask (k : mask_kind) (N : nat)
  | Class (name : string).

Definition uint8 (N : nat) : type := Vector k_uint8 N.
Definition uint16 (N : nat) : type := Vector k_uint16 N.
Definition uint32 (N : nat) : type := Vector k_uint32 N.
Definition uint64 (N : nat) : type := Vector k_uint64 N.
Definition float32 (N : nat) : type := Vector k_float32 N.
Definition float64 (N : nat) : type := Vector k_float64 N.
Definition mask_int8 (N : nat) : type := Mask k_mask_int8 N.
Definition mask_int16 (N : nat) : type := Mask k_mask_int16 N.
Definition mask_int32 (N : nat) : type := Mask k_mask_int32 N.
Definition mask_int64 (N : nat) : type := Mask k_mask_int64 N.
Definition mask_float32 (N : nat) : type := Mask k_mask_float32 N.
Definition mask_float64 (N : nat) : type := Mask k_mask_float64 N.

Definition vector_kind_eqb (a b : vector_kind) : bool :=
  match a, b with
  | k_uint8, k_uint8 | k_uint16, k_uint16 | k_uint32, k_uint32
  | k_uint64, k_uint64 | k_int8, k_int8 | k_int16, k_int16
  | k_int32, k_int32 | k_int64, k_int64 | k_float32, k_float32
  | k_float64, k_float64 => true
  | _, _ => false
  end.

Definition mask_kind_eqb (a b : mask_kind) : bool :=
  match a, b with
  | k_mask_int8, k_mask_int8 | k_mask_int16, k_mask_int16
  | k_mask_int32, k_mask_int32 | k_mask_int64, k_mask_int64
  | k_mask_float32, k_mask_float32 | k_mask_float64, k_mask_float64 => true
  | _, _ => false
  end.

(** [detail::is_same<A, B>::value]. *)
Definition is_same (A B : type) : bool :=
  match A, B with
  | Vector k n, Vector k' n' => vector_kind_eqb k k' && Nat.eqb n n'
  | Mask k n, Mask k' n' => mask_kind_eqb k k' && Nat.eqb n n'
  | Class a, Class b => String.eqb a b
  | _, _ => false
  end.

(** ** Compile-time results *)

Definition diagnostic : Type := string.

(** The outcome of instantiating a template: code, a rejection with the
    messages of the failed static assertions (in the order the compiler
    meets them), or [Unspecified] when the outcome rests on a declaration
    that neither the header nor the collaborator contract fixes. *)
Inductive compile_result (A : Type) : Type :=
  | Compiles (a : A)
  | Rejected (ds : list diagnostic)
  | Unspecified.

Arguments Compiles {A} a.
Arguments Rejected {A} ds.
Arguments Unspecified {A}.

(** The diagnostics [ds] of an enclosing body come before those of what it
    instantiates; a single failed assertion rejects the whole. *)
Definition also {A : Type} (ds : list diagnostic) (r : compile_result A)
  : compile_result A :=
  match ds with
  | [] => r
  | _ :: _ =>
      match r with
      | Rejected ds' => Rejected (ds ++ ds')
      | _ => Rejected ds
      end
  end.

Definition map_result {A B : Type} (f : A -> B) (r : compile_result A)
  : compile_result B :=
  match r with
  | Compiles a => Compiles (f a)
  | Rejected ds => Rejected ds
  | Unspecified => Unspecified
  end.

Definition bind_result {A B : Type} (r : compile_result A)
  (f : A -> compile_result B) : compile_result B :=
  match r with
  | Compiles a => f a
  | Rejected ds => Rejected ds
  | Unspecified => Unspecified
  end.

(** ** Class templates and their specialisations *)

(** A partial specialisation is a partial function on template arguments:
    [Some] body where its argument pattern matches. *)
Definition specialization (Args Body : Type) : Type := Args -> option Body.

Definition matching {Args Body : Type}
  (specs : list (specialization Args Body)) (args : Args) : list Body :=
  flat_map (fun s => match s args with Some b => [b] | None => [] end) specs.

(** Which definition a template-id names: the one specialisation that
    matches, the primary template when none does, or an ambiguity.  (The
    specialisations of this header are never more specialised than one
    another on the arguments they share, so no partial ordering is
    modelled.) *)
Inductive resolution (Body : Type) : Type :=
  | UseSpecialization (b : Body)
  | UsePrimary
  | Ambiguous.

Arguments UseSpecialization {Body} b.
Arguments UsePrimary {Body}.
Arguments Ambiguous {Body}.

Definition resolve {Args Body : Type}
  (specs : list (specialization Args Body)) (args : Args) : resolution Body :=
  match matching specs args with
  | [] => UsePrimary
  | [b] => UseSpecialization b
  | _ :: _ :: _ => Ambiguous
  end.

(** ** [base_mask_vector_type] (lines 24-30) *)

(** [template<unsigned N> struct base_mask_vector_type<mask_int8<N> >
    { typedef uint8<N> type; };] and the five that follow it. *)
Definition base_mask_vector_type_specializations
  : list (specialization type type) :=
  [ (fun T => match T with Mask k_mask_int8 N => Some (uint8 N) | _ => None end);
    (fun T => match T with Mask k_mask_int16 N => Some (uint16 N) | _ => None end);
    (fun T => match T with Mask k_mask_int32 N => Some (uint32 N) | _ => None end);
    (fun T => match T with Mask k_mask_int64 N => Some (uint64 N) | _ => None end);
    (fun T => match T with Mask k_mask_float32 N => Some (float32 N) | _ => None end);
    (fun T => match T with Mask k_mask_float64 N => Some (float64 N) | _ => None end) ].

(** [template<class T> struct base_mask_vector_type { typedef T type; };] *)
Definition base_mask_vector_type_primary (T : type) : type := T.

(** [typename base_mask_vector_type<T>::type]. *)
Definition base_mask_vector_type (T : type) : compile_result type :=
  match resolve base_mask_vector_type_specializations T with
  | UseSpecialization B => Compiles B
  | UsePrimary => Compiles (base_mask_vector_type_primary T)
  | Ambiguous => Rejected ["ambiguous partial specializations"]
  end.

(** The lookup as the spec words it (sections 4.3 and 9: a table of six
    entries, "an unmapped kind must be a compile error, not a
    default/fallback"), to be compared with the header's. *)
Definition spec_base_mask_vector_type (T : type) : compile_result type :=
  match T with
  | Mask k_mask_int8 N => Compiles (uint8 N)
  | Mask k_mask_int16 N => Compiles (uint16 N)
  | Mask k_mask_int32 N => Compiles (uint32 N)
  | Mask k_mask_int64 N => Compiles (uint64 N)
  | Mask k_mask_float32 N => Compiles (float32 N)
  | Mask k_mask_float64 N => Compiles (float64 N)
  | _ => Rejected ["no base vector type for this kind"]
  end.

(** ** Objects, lanes and the collaborators of the header *)

(** An object representation: the bytes of a value's storage. *)
Definition bytes : Type := list byte.

(** The code of an instantiated function template: from the argument's
    object representation to the returned one; [None] is undefined
    behaviour (a copy out of bounds, or no [return] reached). *)
Definition code : Type := bytes -> option bytes.

(** Modelled from the spec: the storage of one lane, in bytes (section 3:
    lanes of 8, 16, 32 or 64 bits, single or double floats). *)
Definition lane_bytes (k : vector_kind) : nat :=
  match k with
  | k_uint8 | k_int8 => 1
  | k_uint16 | k_int16 => 2
  | k_uint32 | k_int32 | k_float32 => 4
  | k_uint64 | k_int64 | k_float64 => 8
  end.

(** Modelled from the spec: the base vector kind a mask kind is defined over
    (section 6, contract 1), which is also the type [unmask()] returns. *)
Definition base_kind (k : mask_kind) : vector_kind :=
  match k with
  | k_mask_int8 => k_uint8
  | k_mask_int16 => k_uint16
  | k_mask_int32 => k_uint32
  | k_mask_int64 => k_uint64
  | k_mask_float32 => k_float32
  | k_mask_float64 => k_float64
  end.

(** Modelled from the spec: the mask kind that a comparison of two vectors of
    kind [k] yields (section 6, contract 2: "a mask value of the matching
    mask type"). *)
Definition mask_kind_of (k : vector_kind) : mask_kind :=
  match k with
  | k_uint8 | k_int8 => k_mask_int8
  | k_uint16 | k_int16 => k_mask_int16
  | k_uint32 | k_int32 => k_mask_int32
  | k_uint64 | k_int64 => k_mask_int64
  | k_float32 => k_mask_float32
  | k_float64 => k_mask_float64
  end.

(** The [n] lanes of [w] bytes each that a vector object is made of. *)
Fixpoint lanes (w n : nat) (bs : bytes) : list bytes :=
  match n with
  | 0 => []
  | S n' => firstn w bs :: lanes w n' (skipn w bs)
  end.

(** The raw value of a lane: its bytes read as an unsigned integer, least
    significant byte first. *)
Fixpoint lane_value (l : bytes) : N :=
  match l with
  | [] => 0%N
  | b :: l' => (Byte.to_N b + 256 * lane_value l')%N
  end.

Definition lane_nonzero (l : bytes) : bool := negb (N.eqb (lane_value l) 0).

(** What the target architecture and [simdpp/types.h] decide. *)
Class Arch : Type := {
  (** [sizeof(T)] *)
  sizeof : type -> nat;
  (** [T::size_tag] of a vector or mask type *)
  size_tag : type -> N;
  (** the content of storage that was declared and not initialised *)
  indeterminate : nat -> byte;
  (** [t.unmask()] of a mask of kind [k] with [n] lanes *)
  unmask : mask_kind -> nat -> bytes -> bytes;
  (** the object of the mask type whose lanes are the given booleans *)
  mask_object : mask_kind -> nat -> list bool -> bytes;
  (** the true/false pattern a mask object stands for *)
  mask_lanes : mask_kind -> nat -> bytes -> list bool
}.

(** Modelled from the spec: the collaborator contract of section 6 and the
    "unmask correctness" property of section 8, for the types of
    [simdpp/types.h], which is not part of the header. *)
Record ArchLaws (A : Arch) : Prop := {
  sizeof_vector :
    forall k n, sizeof (Vector k n) = n * lane_bytes k;
  mask_object_size :
    forall k n l, length l = n -> length (mask_object k n l) = sizeof (Mask k n);
  mask_lanes_object :
    forall k n l, length l = n -> mask_lanes k n (mask_object k n l) = l;
  unmask_size :
    forall k n m, length m = sizeof (Mask k n) ->
      length (unmask k n m) = sizeof (Vector (base_kind k) n);
  unmask_lanes :
    forall k n m, length m = sizeof (Mask k n) ->
      map lane_nonzero (lanes (lane_bytes (base_kind k)) n (unmask k n m))
      = mask_lanes k n m
}.

(** The enumerators [CAST_MASK_MEMCPY], [CAST_MASK_UNMASK] and
    [CAST_MASK_REMASK] of [simdpp/detail/cast.h], which the header names
    without defining; the template parameter that takes them is an
    [unsigned]. *)
Class MaskCast : Type := {
  CAST_MASK_MEMCPY : N;
  CAST_MASK_UNMASK : N;
  CAST_MASK_REMASK : N
}.

(** Enumerators of one enumeration that select three explicit
    specialisations are pairwise different (equal ones would define the same
    specialisation twice). *)
Definition enumerators_distinct (E : MaskCast) : Prop :=
  CAST_MASK_MEMCPY <> CAST_MASK_UNMASK /\
  CAST_MASK_MEMCPY <> CAST_MASK_REMASK /\
  CAST_MASK_UNMASK <> CAST_MASK_REMASK.

(** [T::size_tag], a member of vector and mask types. *)
Definition member_size_tag {A : Arch} (T : type) : option N :=
  match T with
  | Class _ => None
  | _ => Some (size_tag T)
  end.

(** [t.unmask()] with the type it returns, a member of mask types. *)
Definition member_unmask {A : Arch} (T : type) : option (type * (bytes -> bytes)) :=
  match T with
  | Mask k n => Some (Vector (base_kind k) n, unmask k n)
  | _ => None
  end.

(** Modelled from the spec: [(RR) make_zero()], the all-zero vector. *)
Definition make_zero (k : vector_kind) (n : nat) : bytes :=
  repeat x00 (n * lane_bytes k).

Fixpoint zip_with {X Y Z : Type} (f : X -> Y -> Z) (xs : list X) (ys : list Y)
  : list Z :=
  match xs, ys with
  | x :: xs', y :: ys' => f x y :: zip_with f xs' ys'
  | _, _ => []
  end.

(** Modelled from the spec: [cmp_neq(a, b)] of [simdpp/core/cmp_neq.h] on two
    vectors of kind [k] with [n] lanes: the mask of the matching kind whose
    lane is true where the raw values of the two lanes differ (sections 4.4
    and 6).  The comparison of floating-point lanes by value (negative zero,
    NaN) is not modelled. *)
Definition cmp_neq {A : Arch} (k : vector_kind) (n : nat) (a b : bytes) : bytes :=
  mask_object (mask_kind_of k) n
    (zip_with (fun x y => negb (N.eqb (lane_value x) (lane_value y)))
       (lanes (lane_bytes k) n a) (lanes (lane_bytes k) n b)).

(** ** Static assertions and function templates *)

(** A type named in a static assertion: a template parameter of the
    enclosing [template<class R, class T>], or a type known where the
    template is defined. *)
Inductive type_arg : Type :=
  | param_R
  | param_T
  | known (t : type).

(** The conditions the header's static assertions test. *)
Inductive condition : Type :=
  | sizeof_equal (a b : type_arg)      (* sizeof(a) == sizeof(b) *)
  | size_tag_equal (a b : type_arg)    (* a::size_tag == b::size_tag *)
  | not_is_same (a b : type_arg)       (* !(detail::is_same<a, b>::value) *)
  | constant (v : bool).

Definition names_parameter (a : type_arg) : bool :=
  match a with
  | known _ => false
  | param_R | param_T => true
  end.

(** A condition that names a template parameter is dependent: the compiler
    evaluates it when the template is instantiated, not where it is
    defined. *)
Definition dependent (c : condition) : bool :=
  match c with
  | sizeof_equal a b | size_tag_equal a b | not_is_same a b =>
      names_parameter a || names_parameter b
  | constant _ => false
  end.

Definition type_of_arg (R T : type) (a : type_arg) : type :=
  match a with
  | param_R => R
  | param_T => T
  | known t => t
  end.

(** The value of a condition for the arguments [R] and [T]; [None] when it
    names a member the contract does not give the type. *)
Definition value_of {A : Arch} (R T : type) (c : condition) : option bool :=
  match c with
  | sizeof_equal a b =>
      Some (Nat.eqb (sizeof (type_of_arg R T a)) (sizeof (type_of_arg R T b)))
  | size_tag_equal a b =>
      match member_size_tag (type_of_arg R T a),
            member_size_tag (type_of_arg R T b) with
      | Some x, Some y => Some (N.eqb x y)
      | _, _ => None
      end
  | not_is_same a b =>
      Some (negb (is_same (type_of_arg R T a) (type_of_arg R T b)))
  | constant v => Some v
  end.

(** A function template [template<class R, class T> R f(const T& t)]: its
    [SIMDPP_STATIC_ASSERT]s, and what the rest of its body compiles to for
    given arguments. *)
Record function_template : Type := {
  static_asserts : list (condition * diagnostic);
  body : type -> type -> compile_result code
}.

(** The messages of the assertions that fail for [R] and [T]. *)
Fixpoint failed_assertions {A : Arch} (R T : type)
  (l : list (condition * diagnostic)) : option (list diagnostic) :=
  match l with
  | [] => Some []
  | (c, msg) :: l' =>
      match value_of R T c, failed_assertions R T l' with
      | Some true, Some ds => Some ds
      | Some false, Some ds => Some (msg :: ds)
      | _, _ => None
      end
  end.

(** Instantiating [f<R, T>]: phase two of the compilation. *)
Definition instantiate {A : Arch} (f : function_template) (R T : type)
  : compile_result code :=
  match failed_assertions R T (static_asserts f) with
  | Some ds => also ds (body f R T)
  | None => Unspecified
  end.

(** The diagnostics of the definition alone, with nothing instantiated:
    phase one evaluates the assertions that are not dependent. *)
Definition definition_diagnostics {A : Arch} (f : function_template)
  : list diagnostic :=
  flat_map
    (fun a : condition * diagnostic =>
       if dependent (fst a) then []
       else match value_of (Class "R") (Class "T") (fst a) with
            | Some false => [snd a]
            | _ => []
            end)
    (static_asserts f).

(** ** [cast_memcpy] (lines 36-43) *)

(** [R r;] *)
Definition declare {A : Arch} (R : type) : bytes :=
  map indeterminate (seq 0 (sizeof R)).

(** The two objects the body of [cast_memcpy] works on: the local [r] and
    the caller's [t], which it holds by reference. *)
Record frame : Type := {
  local_r : bytes;
  arg_t : bytes
}.

(** [::memcpy(&r, &t, n)]: undefined when either object is shorter than
    [n]. *)
Definition memcpy_r_t (n : nat) (f : frame) : option frame :=
  if Nat.leb n (length (arg_t f)) && Nat.leb n (length (local_r f))
  then Some {| local_r := firstn n (arg_t f) ++ skipn n (local_r f);
               arg_t := arg_t f |}
  else None.

(** The statements of [cast_memcpy<R>], run on the argument [t]. *)
Definition cast_memcpy_exec {A : Arch} (R : type) (t : bytes) : option frame :=
  memcpy_r_t (sizeof R) {| local_r := declare R; arg_t := t |}.

(** [return r;] *)
Definition cast_memcpy_code {A : Arch} (R : type) : code :=
  fun t => option_map local_r (cast_memcpy_exec R t).

Definition cast_memcpy {A : Arch} : function_template := {|
  static_asserts := [(sizeof_equal param_R param_T, "Size mismatch")];
  body := fun R _ => Compiles (cast_memcpy_code R)
|}.

(** ** [cast_memcpy_unmask] (lines 45-51) *)

Definition cast_memcpy_unmask {A : Arch} : function_template := {|
  static_asserts := [];
  body := fun R T =>
    (* typedef typename base_mask_vector_type<T>::type TT; *)
    bind_result (base_mask_vector_type T) (fun TT =>
    (* TT tt = t.unmask(); *)
    match member_unmask T with
    | Some (_, unmask_t) =>
        (* return cast_memcpy<R>(tt); *)
        map_result (fun (c : code) (t : bytes) => c (unmask_t t))
          (instantiate cast_memcpy R TT)
    | None => Unspecified
    end)
|}.

(** ** [cast_memcpy_remask] (lines 53-59) *)

(** [cmp_neq(rr, (RR) make_zero())], returned as an [R]: the rebuilding of a
    mask from the raw vector [rr].  The comparison of two [RR] yields the
    mask type matching [RR]; the contract says nothing on returning it as
    another type. *)
Definition rebuild_mask {A : Arch} (R RR : type) : option (bytes -> bytes) :=
  match RR with
  | Vector k n =>
      if is_same (Mask (mask_kind_of k) n) R
      then Some (fun rr => cmp_neq k n rr (make_zero k n))
      else None
  | _ => None
  end.

Definition cast_memcpy_remask {A : Arch} : function_template := {|
  static_asserts := [];
  body := fun R T =>
    (* typedef typename base_mask_vector_type<R>::type RR; *)
    bind_result (base_mask_vector_type R) (fun RR =>
    match member_unmask T with
    | Some (U, unmask_t) =>
        (* RR rr = cast_memcpy<RR>(t.unmask()); *)
        bind_result (instantiate cast_memcpy RR U) (fun c =>
        (* return cmp_neq(rr, (RR) make_zero()); *)
        match rebuild_mask R RR with
        | Some rebuild =>
            Compiles (fun t => option_map rebuild (c (unmask_t t)))
        | None => Unspecified
        end)
    | None => Unspecified
    end)
|}.

(** ** [cast_wrapper] (lines 61-123) *)

Definition masks_differ : diagnostic :=
  "Conversions between masks with different element size is not allowed".

Definition non_mask_to_mask : diagnostic :=
  "Conversion from non-mask type to a mask type is not allowed".

(** [cast_wrapper<true, true, CAST_MASK_MEMCPY>::run] *)
Definition cast_wrapper_true_true_MEMCPY {A : Arch} : function_template := {|
  static_asserts := [(size_tag_equal param_R param_T, masks_differ)];
  body := instantiate cast_memcpy
|}.

(** [cast_wrapper<true, true, CAST_MASK_UNMASK>::run] *)
Definition cast_wrapper_true_true_UNMASK {A : Arch} : function_template := {|
  static_asserts := [(size_tag_equal param_R param_T, masks_differ)];
  body := instantiate cast_memcpy_unmask
|}.

(** [cast_wrapper<true, true, CAST_MASK_REMASK>::run] *)
Definition cast_wrapper_true_true_REMASK {A : Arch} : function_template := {|
  static_asserts := [(size_tag_equal param_R param_T, masks_differ)];
  body := instantiate cast_memcpy_remask
|}.

(** [cast_wrapper<true, false, MaskCastOverride>::run]: the body holds the
    assertion and no [return]. *)
Definition cast_wrapper_true_false : function_template := {|
  static_asserts := [(not_is_same param_T param_T, non_mask_to_mask)];
  body := fun _ _ => Compiles (fun _ => None)
|}.

(** [cast_wrapper<false, true, MaskCastOverride>::run] *)
Definition cast_wrapper_false_true {A : Arch} : function_template := {|
  static_asserts := [];
  body := instantiate cast_memcpy_unmask
|}.

(** [cast_wrapper<false, false, MaskCastOverride>::run] *)
Definition cast_wrapper_false_false {A : Arch} : function_template := {|
  static_asserts := [];
  body := instantiate cast_memcpy
|}.

(** The template arguments [<bool IsRMask, bool IsLMask, unsigned
    MaskCastOverride>]. *)
Definition template_args : Type := (bool * bool * N)%type.

(** The six specialisations, in the order of the header: three explicit
    ones and three partial ones that leave [MaskCastOverride] open. *)
Definition cast_wrapper_specializations {A : Arch} {E : MaskCast}
  : list (specialization template_args function_template) :=
  [ (fun '(IsRMask, IsLMask, MaskCastOverride) =>
       if Bool.eqb IsRMask true && Bool.eqb IsLMask true
          && N.eqb MaskCastOverride CAST_MASK_MEMCPY
       then Some cast_wrapper_true_true_MEMCPY else None);
    (fun '(IsRMask, IsLMask, MaskCastOverride) =>
       if Bool.eqb IsRMask true && Bool.eqb IsLMask true
          && N.eqb MaskCastOverride CAST_MASK_UNMASK
       then Some cast_wrapper_true_true_UNMASK else None);
    (fun '(IsRMask, IsLMask, MaskCastOverride) =>
       if Bool.eqb IsRMask true && Bool.eqb IsLMask true
          && N.eqb MaskCastOverride CAST_MASK_REMASK
       then Some cast_wrapper_true_true_REMASK else None);
    (fun '(IsRMask, IsLMask, _) =>
       if Bool.eqb IsRMask true && Bool.eqb IsLMask false
       then Some cast_wrapper_true_false else None);
    (fun '(IsRMask, IsLMask, _) =>
       if Bool.eqb IsRMask false && Bool.eqb IsLMask true
       then Some cast_wrapper_false_true else None);
    (fun '(IsRMask, IsLMask, _) =>
       if Bool.eqb IsRMask false && Bool.eqb IsLMask false
       then Some cast_wrapper_false_false else None) ].

(** The definition that [cast_wrapper<IsRMask, IsLMask, MaskCastOverride>]
    names.  [UsePrimary]: none of the header's specialisations; the primary
    template is declared in [simdpp/detail/cast.h]. *)
Definition cast_wrapper {A : Arch} {E : MaskCast}
  (IsRMask IsLMask : bool) (MaskCastOverride : N)
  : resolution function_template :=
  resolve cast_wrapper_specializations (IsRMask, IsLMask, MaskCastOverride).

(** [cast_wrapper<IsRMask, IsLMask, MaskCastOverride>::run<R, T>]. *)
Definition cast_wrapper_run {A : Arch} {E : MaskCast}
  (IsRMask IsLMask : bool) (MaskCastOverride : N) (R T : type)
  : compile_result code :=
  match cast_wrapper IsRMask IsLMask MaskCastOverride with
  | UseSpecialization f => instantiate f R T
  | UsePrimary => Unspecified
  | Ambiguous => Rejected ["ambiguous partial specializations"]
  end.

(** ** Two architectures and the enumeration *)

(** An architecture that stores a mask as a vector of the base kind whose
    lanes are all ones or all zeros (the convention section 9 of the spec
    names); size tags classify types by the size of an element. *)
Definition vector_masks : Arch := {|
  sizeof := fun T =>
    match T with
    | Vector k n => n * lane_bytes k
    | Mask k n => n * lane_bytes (base_kind k)
    | Class _ => 1
    end;
  size_tag := fun T =>
    match T with
    | Vector k _ => N.of_nat (lane_bytes k)
    | Mask k _ => N.of_nat (lane_bytes (base_kind k))
    | Class _ => 0%N
    end;
  indeterminate := fun _ => xcd;
  unmask := fun _ _ m => m;
  mask_object := fun k _ l =>
    flat_map (fun b : bool =>
                repeat (if b then xff else x00) (lane_bytes (base_kind k))) l;
  mask_lanes := fun k n m =>
    map lane_nonzero (lanes (lane_bytes (base_kind k)) n m)
|}.

(** An architecture that stores a mask as one byte per lane, zero or one, so
    that a mask and its base vector differ in size; [unmask] widens every
    lane to all ones or all zeros. *)
Definition packed_masks : Arch := {|
  sizeof := fun T =>
    match T with
    | Vector k n => n * lane_bytes k
    | Mask _ n => n
    | Class _ => 1
    end;
  size_tag := fun T =>
    match T with
    | Vector k _ => N.of_nat (lane_bytes k)
    | Mask k _ => N.of_nat (lane_bytes (base_kind k))
    | Class _ => 0%N
    end;
  indeterminate := fun _ => xcd;
  unmask := fun k _ m =>
    flat_map (fun b : byte =>
                repeat (if Byte.eqb b x00 then x00 else xff)
                  (lane_bytes (base_kind k))) m;
  mask_object := fun _ _ l => map (fun b : bool => if b then x01 else x00) l;
  mask_lanes := fun _ _ m => map (fun b : byte => negb (Byte.eqb b x00)) m
|}.

(** The enumerators numbered in the order the header names them. *)
Definition in_order : MaskCast := {|
  CAST_MASK_MEMCPY := 0;
  CAST_MASK_UNMASK := 1;
  CAST_MASK_REMASK := 2
|}.

(** The architecture [A] with other size tags. *)
Definition with_size_tag (A : Arch) (tag : type -> N) : Arch := {|
  sizeof := @sizeof A;
  size_tag := tag;
  indeterminate := @indeterminate A;
  unmask := @unmask A;
  mask_object := @mask_object A;
  mask_lanes := @mask_lanes A
|}.

(** Running the code of an instantiation, when there is one. *)
Definition run_on (r : compile_result code) (t : bytes) : option bytes :=
  match r with
  | Compiles c => c t
  | _ => None
  end.

(** One cast after another: the second runs on what the first returns. *)
Definition sequence (first second : code) : code :=
  fun t =>
    match first t with
    | Some v => second v
    | None => None
    end.

(** The rejection, if any, names only the size assertions. *)
Definition size_diagnostics_only (r : compile_result code) : Prop :=
  forall ds, r = Rejected ds ->
    forall d, In d ds -> d = "Size mismatch" \/ d = masks_differ.

(** * Properties *)

(** ** The lookup of the base vector type *)

Lemma base_mask_vector_type_mask (k : mask_kind) (n : nat) :
  base_mask_vector_type (Mask k n) = Compiles (Vector (base_kind k) n).
Proof. destruct k; reflexivity. Qed.

Lemma base_mask_vector_type_vector (k : vector_kind) (n : nat) :
  base_mask_vector_type (Vector k n) = Compiles (Vector k n).
Proof. reflexivity. Qed.

Lemma base_mask_vector_type_class (name : string) :
  base_mask_vector_type (Class name) = Compiles (Class name).
Proof. reflexivity. Qed.

Lemma primary_when_not_mask (T : type) :
  (forall k n, T <> Mask k n) ->
  resolve base_mask_vector_type_specializations T = UsePrimary.
Proof.
  intros HT. destruct T as [k n | k n | name]; try reflexivity.
  exfalso. apply (HT k n). reflexivity.
Qed.

Lemma base_mask_vector_type_compiles (T : type) :
  base_mask_vector_type T
  = Compiles (match T with
              | Mask k N => Vector (base_kind k) N
              | _ => T
              end).
Proof.
  destruct T as [k n | k n | name];
    [ reflexivity | apply base_mask_vector_type_mask | reflexivity ].
Qed.

(** C9 (as amended): the lookup maps each of the six mask kinds to its base
    vector type, is defined for each of them, and maps every other type to
    itself through the primary template: it is never a compile error. *)
Theorem base_mask_vector_type_table (T : type) :
  (forall N,
      base_mask_vector_type (mask_int8 N) = Compiles (uint8 N) /\
      base_mask_vector_type (mask_int16 N) = Compiles (uint16 N) /\
      base_mask_vector_type (mask_int32 N) = Compiles (uint32 N) /\
      base_mask_vector_type (mask_int64 N) = Compiles (uint64 N) /\
      base_mask_vector_type (mask_float32 N) = Compiles (float32 N) /\
      base_mask_vector_type (mask_float64 N) = Compiles (float64 N)) /\
  base_mask_vector_type T
  = Compiles (match T with
              | Mask k N => Vector (base_kind k) N
              | _ => T
              end) /\
  (forall ds, base_mask_vector_type T <> Rejected ds).
Proof.
  split; [ intros N; repeat split | ].
  split; [ apply base_mask_vector_type_compiles | ].
  intros ds H. rewrite base_mask_vector_type_compiles in H. discriminate H.
Qed.

(** C9, the claim as stated, fails: for a type outside the six mask kinds the
    header's lookup yields the type itself where the spec's table is a
    compile error. *)
Lemma base_mask_vector_type_falls_back :
  base_mask_vector_type (uint8 16) = Compiles (uint8 16) /\
  spec_base_mask_vector_type (uint8 16)
  = Rejected ["no base vector type for this kind"] /\
  base_mask_vector_type (Class "int") = Compiles (Class "int").
Proof. repeat split. Qed.

(** C10: for a type that is none of the six mask types no specialisation
    matches, the primary template is used, and the lookup yields the type
    itself instead of failing to compile. *)
Theorem base_mask_vector_type_identity (T : type) :
  (forall k n, T <> Mask k n) ->
  resolve base_mask_vector_type_specializations T = UsePrimary /\
  base_mask_vector_type_primary T = T /\
  base_mask_vector_type T = Compiles T.
Proof.
  intros HT. split; [ apply primary_when_not_mask; exact HT | ].
  split; [ reflexivity | ].
  unfold base_mask_vector_type. rewrite (primary_when_not_mask T HT).
  reflexivity.
Qed.

Lemma base_mask_vector_type_identity_witness :
  resolve base_mask_vector_type_specializations (float64 2) = UsePrimary /\
  base_mask_vector_type_primary (float64 2) = float64 2 /\
  base_mask_vector_type (float64 2) = Compiles (float64 2).
Proof.
  apply (base_mask_vector_type_identity (float64 2)).
  intros k n H. discriminate H.
Defined.

(** ** The bit-copy primitive *)

Section BitCopy.
Context {A : Arch}.

Lemma declare_length (R : type) : length (declare R) = sizeof R.
Proof. unfold declare. rewrite length_map, length_seq. reflexivity. Qed.

Lemma memcpy_whole (r t : bytes) :
  length r = length t ->
  memcpy_r_t (length t) {| local_r := r; arg_t := t |}
  = Some {| local_r := t; arg_t := t |}.
Proof.
  intros Hr. unfold memcpy_r_t. cbn [local_r arg_t].
  rewrite Hr, Nat.leb_refl. cbn [andb].
  rewrite firstn_all. rewrite <- Hr, skipn_all, app_nil_r. reflexivity.
Qed.

Lemma cast_memcpy_exec_copies (R : type) (t : bytes) :
  length t = sizeof R ->
  cast_memcpy_exec R t = Some {| local_r := t; arg_t := t |}.
Proof.
  intros Ht. unfold cast_memcpy_exec. rewrite <- Ht.
  apply memcpy_whole. rewrite declare_length. symmetry. exact Ht.
Qed.

Lemma cast_memcpy_code_copies (R : type) (t : bytes) :
  length t = sizeof R -> cast_memcpy_code R t = Some t.
Proof.
  intros Ht. unfold cast_memcpy_code.
  rewrite (cast_memcpy_exec_copies R t Ht). reflexivity.
Qed.

Lemma instantiate_cast_memcpy (R T : type) :
  instantiate cast_memcpy R T
  = if Nat.eqb (sizeof R) (sizeof T)
    then Compiles (cast_memcpy_code R)
    else Rejected ["Size mismatch"].
Proof.
  unfold instantiate. cbn.
  destruct (Nat.eqb (sizeof R) (sizeof T)); reflexivity.
Qed.

Lemma instantiate_cast_memcpy_equal (R T : type) :
  sizeof R = sizeof T ->
  instantiate cast_memcpy R T = Compiles (cast_memcpy_code R).
Proof.
  intros H. rewrite instantiate_cast_memcpy.
  apply Nat.eqb_eq in H. rewrite H. reflexivity.
Qed.

Lemma instantiate_cast_memcpy_unequal (R T : type) :
  sizeof R <> sizeof T ->
  instantiate cast_memcpy R T = Rejected ["Size mismatch"].
Proof.
  intros H. rewrite instantiate_cast_memcpy.
  apply Nat.eqb_neq in H. rewrite H. reflexivity.
Qed.
End BitCopy.

(** C3: with [sizeof(R) == sizeof(T)], [cast_memcpy<R>] compiles and
    returns, for every value of [T], an [R] whose bytes are those of the
    source, which it leaves as it was; with different sizes the
    instantiation is rejected with "Size mismatch" and there is no code to
    run. *)
Theorem cast_memcpy_bit_identical {A : Arch} (R T : type) (t : bytes) :
  length t = sizeof T ->
  (sizeof R = sizeof T ->
     exists c : code,
       instantiate cast_memcpy R T = Compiles c /\
       c t = Some t /\
       length t = sizeof R /\
       option_map arg_t (cast_memcpy_exec R t) = Some t) /\
  (sizeof R <> sizeof T ->
     instantiate cast_memcpy R T = Rejected ["Size mismatch"] /\
     forall c : code, instantiate cast_memcpy R T <> Compiles c).
Proof.
  intros Ht. split.
  - intros Hs. exists (cast_memcpy_code R).
    assert (Ht' : length t = sizeof R) by (rewrite Hs; exact Ht).
    split; [ apply instantiate_cast_memcpy_equal; exact Hs | ].
    split; [ apply cast_memcpy_code_copies; exact Ht' | ].
    split; [ exact Ht' | ].
    rewrite (cast_memcpy_exec_copies R t Ht'). reflexivity.
  - intros Hs. rewrite (instantiate_cast_memcpy_unequal R T Hs).
    split; [ reflexivity | intros c H; discriminate H ].
Qed.

Lemma cast_memcpy_bit_identical_witness :
  exists c : code,
    instantiate (A := vector_masks) (cast_memcpy (A := vector_masks))
      (uint32 2) (float64 1)
    = Compiles c /\
    c [x01; x02; x03; x04; x05; x06; x07; x08]
    = Some [x01; x02; x03; x04; x05; x06; x07; x08] /\
    length [x01; x02; x03; x04; x05; x06; x07; x08]
    = sizeof (Arch := vector_masks) (uint32 2) /\
    option_map arg_t
      (cast_memcpy_exec (A := vector_masks) (uint32 2)
         [x01; x02; x03; x04; x05; x06; x07; x08])
    = Some [x01; x02; x03; x04; x05; x06; x07; x08].
Proof.
  exact (proj1
           (cast_memcpy_bit_identical (A := vector_masks)
              (uint32 2) (float64 1)
              [x01; x02; x03; x04; x05; x06; x07; x08] eq_refl)
           eq_refl).
Defined.

(** ** The dispatcher *)

Section Dispatcher.
Context {A : Arch} {E : MaskCast}.

Lemma cast_wrapper_true_false_selected (k : N) :
  cast_wrapper true false k = UseSpecialization cast_wrapper_true_false.
Proof. reflexivity. Qed.

Lemma cast_wrapper_false_true_selected (k : N) :
  cast_wrapper false true k = UseSpecialization cast_wrapper_false_true.
Proof. reflexivity. Qed.

Lemma cast_wrapper_false_false_selected (k : N) :
  cast_wrapper false false k = UseSpecialization cast_wrapper_false_false.
Proof. reflexivity. Qed.

(** With both flags true the three explicit specialisations are tried on
    the strategy flag alone. *)
Lemma matching_true_true (k : N) :
  matching cast_wrapper_specializations (true, true, k)
  = (if N.eqb k CAST_MASK_MEMCPY then [cast_wrapper_true_true_MEMCPY] else [])
    ++ (if N.eqb k CAST_MASK_UNMASK then [cast_wrapper_true_true_UNMASK] else [])
    ++ (if N.eqb k CAST_MASK_REMASK then [cast_wrapper_true_true_REMASK] else []).
Proof.
  unfold matching, cast_wrapper_specializations. cbn.
  destruct (N.eqb k CAST_MASK_MEMCPY), (N.eqb k CAST_MASK_UNMASK),
    (N.eqb k CAST_MASK_REMASK); reflexivity.
Qed.

Hypothesis distinct : enumerators_distinct E.

Lemma cast_wrapper_MEMCPY_selected :
  cast_wrapper true true CAST_MASK_MEMCPY
  = UseSpecialization cast_wrapper_true_true_MEMCPY.
Proof.
  destruct distinct as (Hmu & Hmr & _).
  unfold cast_wrapper, resolve. rewrite matching_true_true.
  rewrite N.eqb_refl.
  apply N.eqb_neq in Hmu, Hmr. rewrite Hmu, Hmr. reflexivity.
Qed.

Lemma cast_wrapper_UNMASK_selected :
  cast_wrapper true true CAST_MASK_UNMASK
  = UseSpecialization cast_wrapper_true_true_UNMASK.
Proof.
  destruct distinct as (Hmu & _ & Hur).
  unfold cast_wrapper, resolve. rewrite matching_true_true.
  rewrite N.eqb_refl.
  apply not_eq_sym in Hmu. apply N.eqb_neq in Hmu, Hur.
  rewrite Hmu, Hur. reflexivity.
Qed.

Lemma cast_wrapper_REMASK_selected :
  cast_wrapper true true CAST_MASK_REMASK
  = UseSpecialization cast_wrapper_true_true_REMASK.
Proof.
  destruct distinct as (_ & Hmr & Hur).
  unfold cast_wrapper, resolve. rewrite matching_true_true.
  rewrite N.eqb_refl.
  apply not_eq_sym in Hmr, Hur. apply N.eqb_neq in Hmr, Hur.
  rewrite Hmr, Hur. reflexivity.
Qed.

Lemma cast_wrapper_unnamed (k : N) :
  k <> CAST_MASK_MEMCPY -> k <> CAST_MASK_UNMASK -> k <> CAST_MASK_REMASK ->
  matching cast_wrapper_specializations (true, true, k) = [].
Proof.
  intros Hm Hu Hr. rewrite matching_true_true.
  apply N.eqb_neq in Hm, Hu, Hr. rewrite Hm, Hu, Hr. reflexivity.
Qed.

Lemma at_most_one_matches (r l : bool) (k : N) :
  length (matching cast_wrapper_specializations (r, l, k)) <= 1.
Proof.
  destruct r, l; try (cbn; lia).
  rewrite matching_true_true.
  destruct distinct as (Hmu & Hmr & Hur).
  destruct (N.eqb_spec k CAST_MASK_MEMCPY) as [Em | _],
    (N.eqb_spec k CAST_MASK_UNMASK) as [Eu | _],
    (N.eqb_spec k CAST_MASK_REMASK) as [Er | _];
    cbn; try lia; congruence.
Qed.
End Dispatcher.

(** Among four consecutive values of the strategy flag one is none of the
    three enumerators. *)
Lemma some_flag_is_unnamed (E : MaskCast) :
  exists k : N,
    (k < 4)%N /\
    k <> CAST_MASK_MEMCPY /\ k <> CAST_MASK_UNMASK /\ k <> CAST_MASK_REMASK.
Proof.
  assert (named : forall k : N,
             {k = CAST_MASK_MEMCPY \/ k = CAST_MASK_UNMASK \/ k = CAST_MASK_REMASK}
             + {k <> CAST_MASK_MEMCPY /\ k <> CAST_MASK_UNMASK
                /\ k <> CAST_MASK_REMASK}).
  { intros k.
    destruct (N.eq_dec k CAST_MASK_MEMCPY); [ left; tauto | ].
    destruct (N.eq_dec k CAST_MASK_UNMASK); [ left; tauto | ].
    destruct (N.eq_dec k CAST_MASK_REMASK); [ left; tauto | ].
    right; tauto. }
  destruct (named 0%N) as [H0 | H0]; [ | exists 0%N; split; [ lia | exact H0 ] ].
  destruct (named 1%N) as [H1 | H1]; [ | exists 1%N; split; [ lia | exact H1 ] ].
  destruct (named 2%N) as [H2 | H2]; [ | exists 2%N; split; [ lia | exact H2 ] ].
  destruct (named 3%N) as [H3 | H3]; [ | exists 3%N; split; [ lia | exact H3 ] ].
  exfalso. lia.
Qed.

(** ** Which diagnostics an instantiation can carry *)

Section Diagnostics.
Context {A : Arch}.

Lemma cast_memcpy_diagnostics (R T : type) :
  size_diagnostics_only (instantiate cast_memcpy R T).
Proof.
  intros ds H d Hd. rewrite instantiate_cast_memcpy in H.
  destruct (Nat.eqb (sizeof R) (sizeof T)); [ discriminate H | ].
  injection H as <-. destruct Hd as [<- | []]. left; reflexivity.
Qed.

Lemma instantiate_cast_memcpy_unmask (R : type) (k : mask_kind) (n : nat) :
  instantiate cast_memcpy_unmask R (Mask k n)
  = map_result (fun (c : code) (t : bytes) => c (unmask k n t))
      (instantiate cast_memcpy R (Vector (base_kind k) n)).
Proof.
  unfold instantiate at 1. cbn.
  rewrite base_mask_vector_type_mask. reflexivity.
Qed.

Lemma cast_memcpy_unmask_diagnostics (R T : type) :
  size_diagnostics_only (instantiate cast_memcpy_unmask R T).
Proof.
  intros ds H d Hd.
  destruct T as [k n | k n | name]; try discriminate H.
  rewrite instantiate_cast_memcpy_unmask in H.
  destruct (instantiate cast_memcpy R (Vector (base_kind k) n)) as [c | ds' | ]
    eqn:Ec; try discriminate H.
  injection H as <-.
  exact (cast_memcpy_diagnostics R _ ds' Ec d Hd).
Qed.

Lemma cast_memcpy_remask_diagnostics (R T : type) :
  size_diagnostics_only (instantiate cast_memcpy_remask R T).
Proof.
  intros ds H d Hd. unfold instantiate in H at 1. cbn in H.
  destruct (base_mask_vector_type R) as [RR | ds0 | ] eqn:ER.
  - cbn in H. destruct T as [k n | k n | name]; cbn in H; try discriminate H.
    destruct (instantiate cast_memcpy RR (Vector (base_kind k) n))
      as [c | ds' | ] eqn:Ec; cbn in H.
    + destruct (rebuild_mask R RR); discriminate H.
    + injection H as <-. exact (cast_memcpy_diagnostics RR _ ds' Ec d Hd).
    + discriminate H.
  - rewrite base_mask_vector_type_compiles in ER. discriminate ER.
  - discriminate H.
Qed.

(** A body guarded by the size-tag assertion. *)
Lemma guarded_diagnostics (f : function_template) (R T : type) :
  static_asserts f = [(size_tag_equal param_R param_T, masks_differ)] ->
  size_diagnostics_only (body f R T) ->
  size_diagnostics_only (instantiate f R T).
Proof.
  intros Hf Hb ds H d Hd. unfold instantiate in H. rewrite Hf in H.
  cbn in H.
  destruct (member_size_tag R) as [x | ]; [ | discriminate H ].
  destruct (member_size_tag T) as [y | ]; [ | discriminate H ].
  destruct (N.eqb x y); cbn in H.
  - exact (Hb ds H d Hd).
  - destruct (body f R T) as [c | ds' | ] eqn:Eb.
    + injection H as <-. destruct Hd as [<- | []]. right; reflexivity.
    + injection H as <-. destruct Hd as [<- | Hd];
        [ right; reflexivity | exact (Hb ds' eq_refl d Hd) ].
    + injection H as <-. destruct Hd as [<- | []]. right; reflexivity.
Qed.

Lemma unguarded_diagnostics (f : function_template) (R T : type) :
  static_asserts f = [] ->
  size_diagnostics_only (body f R T) ->
  size_diagnostics_only (instantiate f R T).
Proof.
  intros Hf Hb. unfold instantiate. rewrite Hf. exact Hb.
Qed.

Lemma cast_wrapper_true_false_rejects (R T : type) :
  instantiate cast_wrapper_true_false R T = Rejected [non_mask_to_mask].
Proof.
  unfold instantiate. cbn.
  assert (Hsame : is_same T T = true).
  { destruct T as [k n | k n | name]; cbn.
    - rewrite Nat.eqb_refl. destruct k; reflexivity.
    - rewrite Nat.eqb_refl. destruct k; reflexivity.
    - apply String.eqb_refl. }
  rewrite Hsame. reflexivity.
Qed.

Context {E : MaskCast}.

Lemma size_diagnostics_exclude (r : compile_result code) :
  size_diagnostics_only r ->
  forall ds, r = Rejected ds -> ~ In non_mask_to_mask ds.
Proof.
  intros Hr ds H Hin.
  destruct (Hr ds H non_mask_to_mask Hin) as [Hd | Hd]; discriminate Hd.
Qed.

(** No instantiation with flags other than [<true, false>] carries the
    diagnostic of the non-mask to mask assertion. *)
Lemma other_paths_diagnostics (r l : bool) (k : N) (R T : type) :
  (r, l) <> (true, false) ->
  forall ds, cast_wrapper_run r l k R T = Rejected ds ->
    ~ In non_mask_to_mask ds.
Proof.
  intros Hrl. destruct r, l.
  - unfold cast_wrapper_run, cast_wrapper, resolve.
    rewrite matching_true_true.
    destruct (N.eqb k CAST_MASK_MEMCPY), (N.eqb k CAST_MASK_UNMASK),
      (N.eqb k CAST_MASK_REMASK); cbn [app];
      try (intros ds H; discriminate H);
      try (intros ds H; injection H as <-; intros Hin;
           destruct Hin as [Hd | []]; discriminate Hd).
    + apply size_diagnostics_exclude, guarded_diagnostics;
        [ reflexivity | apply cast_memcpy_diagnostics ].
    + apply size_diagnostics_exclude, guarded_diagnostics;
        [ reflexivity | apply cast_memcpy_unmask_diagnostics ].
    + apply size_diagnostics_exclude, guarded_diagnostics;
        [ reflexivity | apply cast_memcpy_remask_diagnostics ].
  - exfalso. apply Hrl. reflexivity.
  - apply size_diagnostics_exclude, unguarded_diagnostics;
      [ reflexivity | apply cast_memcpy_unmask_diagnostics ].
  - apply size_diagnostics_exclude, unguarded_diagnostics;
      [ reflexivity | apply cast_memcpy_diagnostics ].
Qed.
End Diagnostics.

(** C1: with a mask destination and a non-mask source, for every value of
    the strategy flag and all types [R] and [T], the instantiation is
    rejected with "Conversion from non-mask type to a mask type is not
    allowed" and there is no code to run.  The assertion is dependent, so
    the definition alone raises no diagnostic, and no instantiation on
    another path carries its message. *)
Theorem non_mask_to_mask_rejected {A : Arch} {E : MaskCast}
  (MaskCastOverride : N) (R T : type) :
  cast_wrapper true false MaskCastOverride
  = UseSpecialization cast_wrapper_true_false /\
  cast_wrapper_run true false MaskCastOverride R T
  = Rejected ["Conversion from non-mask type to a mask type is not allowed"] /\
  (forall c : code,
      cast_wrapper_run true false MaskCastOverride R T <> Compiles c) /\
  static_asserts cast_wrapper_true_false
  = [(not_is_same param_T param_T,
      "Conversion from non-mask type to a mask type is not allowed")] /\
  dependent (not_is_same param_T param_T) = true /\
  definition_diagnostics cast_wrapper_true_false = [] /\
  (forall (r l : bool) (k : N) (R' T' : type) (ds : list diagnostic),
      cast_wrapper_run r l k R' T' = Rejected ds ->
      In "Conversion from non-mask type to a mask type is not allowed" ds ->
      r = true /\ l = false).
Proof.
  assert (Hrun : cast_wrapper_run true false MaskCastOverride R T
                 = Rejected [non_mask_to_mask]).
  { unfold cast_wrapper_run. rewrite cast_wrapper_true_false_selected.
    apply cast_wrapper_true_false_rejects. }
  split; [ reflexivity | ].
  split; [ exact Hrun | ].
  split; [ intros c H; rewrite Hrun in H; discriminate H | ].
  split; [ reflexivity | ].
  split; [ reflexivity | ].
  split; [ reflexivity | ].
  intros r l k R' T' ds Hds Hin.
  destruct r, l; try (split; reflexivity); exfalso;
    (eapply other_paths_diagnostics; [ | exact Hds | exact Hin ]);
    intros H; discriminate H.
Qed.

(** C2 (as amended): no combination of the two mask flags and the strategy
    flag selects more than one specialisation.  A combination with a flag
    false, or with both true and the strategy flag one of the three
    enumerators, selects exactly one: the rejection, the plain bit copy, the
    unmask and bit copy, or the guarded body of the named strategy.  With
    both flags true and any other value of the strategy flag no
    specialisation of the header is selected. *)
Theorem cast_wrapper_selects_one {A : Arch} {E : MaskCast}
  (IsRMask IsLMask : bool) (MaskCastOverride : N) :
  enumerators_distinct E ->
  length (matching cast_wrapper_specializations
            (IsRMask, IsLMask, MaskCastOverride)) <= 1 /\
  (IsRMask = true -> IsLMask = false ->
     cast_wrapper IsRMask IsLMask MaskCastOverride
     = UseSpecialization cast_wrapper_true_false /\
     forall R T, instantiate cast_wrapper_true_false R T
                 = Rejected [non_mask_to_mask]) /\
  (IsRMask = false -> IsLMask = false ->
     cast_wrapper IsRMask IsLMask MaskCastOverride
     = UseSpecialization cast_wrapper_false_false /\
     forall R T, instantiate cast_wrapper_false_false R T
                 = instantiate cast_memcpy R T) /\
  (IsRMask = false -> IsLMask = true ->
     cast_wrapper IsRMask IsLMask MaskCastOverride
     = UseSpecialization cast_wrapper_false_true /\
     forall R T, instantiate cast_wrapper_false_true R T
                 = instantiate cast_memcpy_unmask R T) /\
  (IsRMask = true -> IsLMask = true ->
     (MaskCastOverride = CAST_MASK_MEMCPY ->
        cast_wrapper IsRMask IsLMask MaskCastOverride
        = UseSpecialization cast_wrapper_true_true_MEMCPY) /\
     (MaskCastOverride = CAST_MASK_UNMASK ->
        cast_wrapper IsRMask IsLMask MaskCastOverride
        = UseSpecialization cast_wrapper_true_true_UNMASK) /\
     (MaskCastOverride = CAST_MASK_REMASK ->
        cast_wrapper IsRMask IsLMask MaskCastOverride
        = UseSpecialization cast_wrapper_true_true_REMASK) /\
     (MaskCastOverride <> CAST_MASK_MEMCPY ->
      MaskCastOverride <> CAST_MASK_UNMASK ->
      MaskCastOverride <> CAST_MASK_REMASK ->
        cast_wrapper IsRMask IsLMask MaskCastOverride = UsePrimary)) /\
  body cast_wrapper_true_true_MEMCPY = instantiate cast_memcpy /\
  body cast_wrapper_true_true_UNMASK = instantiate cast_memcpy_unmask /\
  body cast_wrapper_true_true_REMASK = instantiate cast_memcpy_remask.
Proof.
  intros Hd.
  split; [ apply at_most_one_matches; exact Hd | ].
  split; [ intros -> ->; split;
           [ reflexivity | apply cast_wrapper_true_false_rejects ] | ].
  split; [ intros -> ->; split; reflexivity | ].
  split; [ intros -> ->; split; reflexivity | ].
  split; [ | repeat split ].
  intros -> ->.
  split; [ intros ->; apply cast_wrapper_MEMCPY_selected; exact Hd | ].
  split; [ intros ->; apply cast_wrapper_UNMASK_selected; exact Hd | ].
  split; [ intros ->; apply cast_wrapper_REMASK_selected; exact Hd | ].
  intros Hm Hu Hr. unfold cast_wrapper, resolve.
  rewrite (cast_wrapper_unnamed MaskCastOverride Hm Hu Hr). reflexivity.
Qed.

(** C2, the claim as stated, fails: the strategy flag is an [unsigned], and
    with both mask flags true a value that is none of the three enumerators
    selects none of the header's specialisations, whatever the
    enumerators are. *)
Lemma cast_wrapper_selects_none :
  matching (cast_wrapper_specializations (A := vector_masks) (E := in_order))
    (true, true, 3%N) = [] /\
  cast_wrapper (A := vector_masks) (E := in_order) true true 3 = UsePrimary /\
  (forall (A : Arch) (E : MaskCast),
      exists k : N,
        (k < 4)%N /\
        matching cast_wrapper_specializations (true, true, k) = [] /\
        cast_wrapper true true k = UsePrimary).
Proof.
  split; [ reflexivity | ].
  split; [ reflexivity | ].
  intros A E. destruct (some_flag_is_unnamed E) as (k & Hk & Hm & Hu & Hr).
  exists k. split; [ exact Hk | ].
  assert (Hnone : matching cast_wrapper_specializations (true, true, k) = []).
  { rewrite matching_true_true.
    apply N.eqb_neq in Hm, Hu, Hr. rewrite Hm, Hu, Hr. reflexivity. }
  split; [ exact Hnone | ].
  unfold cast_wrapper, resolve. rewrite Hnone. reflexivity.
Qed.

Lemma in_order_distinct : enumerators_distinct in_order.
Proof. repeat split; intros H; discriminate H. Qed.

Lemma cast_wrapper_selects_one_witness :
  length (matching
            (cast_wrapper_specializations (A := vector_masks) (E := in_order))
            (true, true, 2%N)) <= 1 /\
  cast_wrapper (A := vector_masks) (E := in_order) true true 2
  = UseSpecialization (cast_wrapper_true_true_REMASK (A := vector_masks)).
Proof.
  pose proof (cast_wrapper_selects_one (A := vector_masks) (E := in_order)
                true true 2 in_order_distinct) as H.
  split; [ exact (proj1 H) | ].
  destruct H as (_ & _ & _ & _ & H & _).
  destruct (H eq_refl eq_refl) as (_ & _ & Hr & _).
  exact (Hr eq_refl).
Defined.

(** ** Casts between vectors, and from a mask to a vector *)

(** C7: for vector types [A] and [B] of equal size, whatever the strategy
    flags, both casts compile, and casting a value of [A] to [B] and the
    result back to [A] returns the bytes of the original. *)
Theorem vector_round_trip {Ar : Arch} {E : MaskCast}
  (k1 k2 : N) (ka kb : vector_kind) (na nb : nat) (a : bytes) :
  sizeof (Vector ka na) = sizeof (Vector kb nb) ->
  length a = sizeof (Vector ka na) ->
  exists (there back : code) (b : bytes),
    cast_wrapper_run false false k1 (Vector kb nb) (Vector ka na)
    = Compiles there /\
    cast_wrapper_run false false k2 (Vector ka na) (Vector kb nb)
    = Compiles back /\
    there a = Some b /\
    back b = Some a.
Proof.
  intros Hs Ha.
  exists (cast_memcpy_code (Vector kb nb)), (cast_memcpy_code (Vector ka na)), a.
  split; [ apply instantiate_cast_memcpy_equal; symmetry; exact Hs | ].
  split; [ apply instantiate_cast_memcpy_equal; exact Hs | ].
  split; apply cast_memcpy_code_copies; [ rewrite <- Hs | ]; exact Ha.
Qed.

Lemma vector_round_trip_witness :
  exists (there back : code) (b : bytes),
    cast_wrapper_run (A := vector_masks) (E := in_order) false false 0
      (float32 2) (uint16 4) = Compiles there /\
    cast_wrapper_run (A := vector_masks) (E := in_order) false false 0
      (uint16 4) (float32 2) = Compiles back /\
    there [x00; x00; x80; x3f; xde; xad; xbe; xef] = Some b /\
    back b = Some [x00; x00; x80; x3f; xde; xad; xbe; xef].
Proof.
  exact (vector_round_trip (Ar := vector_masks) (E := in_order) 0 0
           k_uint16 k_float32 4 2
           [x00; x00; x80; x3f; xde; xad; xbe; xef] eq_refl eq_refl).
Defined.

(** C8: a cast from a mask to a non-mask type, whatever the strategy flag,
    is [cast_memcpy_unmask]: it takes [unmask()] of the source and bit-copies
    that into the destination.  It carries no static assertion of its own:
    it compiles exactly when the destination has the size of the source's
    base vector, else it is rejected with "Size mismatch" alone, and the
    size tags of the architecture have no part in the outcome. *)
Theorem mask_to_vector_unmasks {A : Arch} {E : MaskCast}
  (MaskCastOverride : N) (R : type) (k : mask_kind) (n : nat) (t : bytes) :
  ArchLaws A ->
  length t = sizeof (Mask k n) ->
  cast_wrapper false true MaskCastOverride
  = UseSpecialization cast_wrapper_false_true /\
  static_asserts cast_wrapper_false_true = [] /\
  body cast_wrapper_false_true = instantiate cast_memcpy_unmask /\
  (sizeof R = sizeof (Vector (base_kind k) n) ->
     exists c : code,
       cast_wrapper_run false true MaskCastOverride R (Mask k n) = Compiles c /\
       c t = Some (unmask k n t) /\
       c t = cast_memcpy_code R (unmask k n t)) /\
  (sizeof R <> sizeof (Vector (base_kind k) n) ->
     cast_wrapper_run false true MaskCastOverride R (Mask k n)
     = Rejected ["Size mismatch"]) /\
  (forall tag : type -> N,
     cast_wrapper_run (A := with_size_tag A tag) false true MaskCastOverride
       R (Mask k n)
     = cast_wrapper_run false true MaskCastOverride R (Mask k n)).
Proof.
  intros HL Ht.
  assert (Hrun : cast_wrapper_run false true MaskCastOverride R (Mask k n)
                 = map_result (fun (c : code) (t : bytes) => c (unmask k n t))
                     (instantiate cast_memcpy R (Vector (base_kind k) n))).
  { unfold cast_wrapper_run. rewrite cast_wrapper_false_true_selected.
    apply instantiate_cast_memcpy_unmask. }
  split; [ reflexivity | ].
  split; [ reflexivity | ].
  split; [ reflexivity | ].
  split; [ | split ].
  - intros Hs.
    exists (fun t => cast_memcpy_code R (unmask k n t)).
    split; [ rewrite Hrun, (instantiate_cast_memcpy_equal R _ Hs); reflexivity | ].
    split; [ | reflexivity ].
    apply cast_memcpy_code_copies.
    rewrite (unmask_size A HL k n t Ht). symmetry. exact Hs.
  - intros Hs.
    rewrite Hrun, (instantiate_cast_memcpy_unequal R _ Hs). reflexivity.
  - intros tag. destruct k; reflexivity.
Qed.

(** ** Lanes *)

Lemma lanes_length (w n : nat) (bs : bytes) : length (lanes w n bs) = n.
Proof.
  revert bs. induction n as [ | n IH]; intros bs; cbn; [ | rewrite IH ];
    reflexivity.
Qed.

Lemma firstn_skipn_exact {X : Type} (w : nat) (l1 l2 : list X) :
  length l1 = w -> firstn w (l1 ++ l2) = l1 /\ skipn w (l1 ++ l2) = l2.
Proof.
  intros <-. split.
  - rewrite firstn_app, Nat.sub_diag, firstn_all. cbn. apply app_nil_r.
  - rewrite skipn_app, Nat.sub_diag, skipn_all. reflexivity.
Qed.

(** The lanes of an object written lane by lane. *)
Lemma lanes_flat_map_repeat {X : Type} (f : X -> byte) (w : nat) (l : list X) :
  lanes w (length l) (flat_map (fun x => repeat (f x) w) l)
  = map (fun x => repeat (f x) w) l.
Proof.
  induction l as [ | x l IH]; cbn; [ reflexivity | ].
  destruct (firstn_skipn_exact w (repeat (f x) w)
              (flat_map (fun x => repeat (f x) w) l) (repeat_length _ _))
    as (-> & ->).
  rewrite IH. reflexivity.
Qed.

Lemma flat_map_repeat_length {X : Type} (f : X -> byte) (w : nat) (l : list X) :
  length (flat_map (fun x => repeat (f x) w) l) = length l * w.
Proof.
  induction l as [ | x l IH]; cbn; [ reflexivity | ].
  rewrite length_app, repeat_length, IH. reflexivity.
Qed.

Lemma lanes_zero (w n : nat) :
  lanes w n (repeat x00 (n * w)) = repeat (repeat x00 w) n.
Proof.
  induction n as [ | n IH]; cbn; [ reflexivity | ].
  rewrite repeat_app.
  destruct (firstn_skipn_exact w (repeat x00 w) (repeat x00 (n * w))
              (repeat_length _ _)) as (-> & ->).
  rewrite IH. reflexivity.
Qed.

Lemma lane_value_zero (w : nat) : lane_value (repeat x00 w) = 0%N.
Proof.
  induction w as [ | w IH]; cbn [repeat lane_value]; [ reflexivity | ].
  rewrite IH. reflexivity.
Qed.

Lemma lane_nonzero_zero (w : nat) : lane_nonzero (repeat x00 w) = false.
Proof. unfold lane_nonzero. rewrite lane_value_zero. reflexivity. Qed.

Lemma lane_nonzero_ones (w : nat) : 0 < w -> lane_nonzero (repeat xff w) = true.
Proof.
  intros Hw. destruct w as [ | w]; [ lia | ].
  unfold lane_nonzero. cbn [repeat lane_value].
  apply negb_true_iff, N.eqb_neq.
  change (Byte.to_N xff) with 255%N. lia.
Qed.

Lemma lane_bytes_positive (k : vector_kind) : 0 < lane_bytes k.
Proof. destruct k; cbn; lia. Qed.

Lemma zip_with_repeat {X Y Z : Type} (f : X -> Y -> Z) (xs : list X) (y : Y) :
  zip_with f xs (repeat y (length xs)) = map (fun x => f x y) xs.
Proof.
  induction xs as [ | x xs IH]; cbn; [ | rewrite IH ]; reflexivity.
Qed.

Lemma mask_kind_of_base_kind (k : mask_kind) : mask_kind_of (base_kind k) = k.
Proof. destruct k; reflexivity. Qed.

Lemma mask_kind_eqb_refl (k : mask_kind) : mask_kind_eqb k k = true.
Proof. destruct k; reflexivity. Qed.

(** ** The two architectures keep the collaborator contract *)

Lemma vector_masks_laws : ArchLaws vector_masks.
Proof.
  constructor.
  - reflexivity.
  - intros k n l <-. cbn. apply flat_map_repeat_length.
  - intros k n l <-. cbn.
    rewrite (lanes_flat_map_repeat (fun b : bool => if b then xff else x00)).
    rewrite map_map.
    induction l as [ | b l IH]; cbn [map]; [ reflexivity | ].
    rewrite IH. f_equal.
    destruct b;
      [ apply lane_nonzero_ones, lane_bytes_positive | apply lane_nonzero_zero ].
  - intros k n m Hm. exact Hm.
  - reflexivity.
Qed.

Lemma packed_masks_laws : ArchLaws packed_masks.
Proof.
  constructor.
  - reflexivity.
  - intros k n l <-. cbn. apply length_map.
  - intros k n l _. cbn. rewrite map_map.
    induction l as [ | b l IH]; cbn [map]; [ reflexivity | ].
    rewrite IH. destruct b; reflexivity.
  - intros k n m Hm. cbn in *. rewrite flat_map_repeat_length, Hm. reflexivity.
  - intros k n m Hm. cbn in *. rewrite <- Hm.
    rewrite (lanes_flat_map_repeat
               (fun b : byte => if Byte.eqb b x00 then x00 else xff)).
    rewrite map_map. apply map_ext. intros b.
    destruct (Byte.eqb b x00);
      [ apply lane_nonzero_zero | apply lane_nonzero_ones, lane_bytes_positive ].
Qed.

Lemma mask_to_vector_unmasks_witness :
  exists c : code,
    cast_wrapper_run (A := packed_masks) (E := in_order) false true 1
      (uint32 2) (mask_float32 2) = Compiles c /\
    c [x01; x00] = Some [xff; xff; xff; xff; x00; x00; x00; x00].
Proof.
  destruct (mask_to_vector_unmasks (A := packed_masks) (E := in_order) 1
              (uint32 2) k_mask_float32 2 [x01; x00]
              packed_masks_laws eq_refl)
    as (_ & _ & _ & H & _).
  destruct (H eq_refl) as (c & Hc & Hrun & _).
  exists c. split; [ exact Hc | exact Hrun ].
Defined.

(** ** Rebuilding a mask *)

Section Rebuild.
Context {A : Arch}.

Lemma rebuild_mask_of_base (k : mask_kind) (n : nat) :
  rebuild_mask (Mask k n) (Vector (base_kind k) n)
  = Some (fun rr => cmp_neq (base_kind k) n rr (make_zero (base_kind k) n)).
Proof.
  unfold rebuild_mask. cbn [is_same].
  rewrite mask_kind_of_base_kind, mask_kind_eqb_refl, Nat.eqb_refl.
  reflexivity.
Qed.

Lemma cmp_neq_zero (k : mask_kind) (n : nat) (rr : bytes) :
  cmp_neq (base_kind k) n rr (make_zero (base_kind k) n)
  = mask_object k n
      (map lane_nonzero (lanes (lane_bytes (base_kind k)) n rr)).
Proof.
  unfold cmp_neq, make_zero.
  rewrite mask_kind_of_base_kind, lanes_zero. f_equal.
  pose proof (lanes_length (lane_bytes (base_kind k)) n rr) as Hlen.
  rewrite <- Hlen at 2. rewrite zip_with_repeat.
  apply map_ext. intros lane. rewrite lane_value_zero. reflexivity.
Qed.

(** [cast_memcpy_remask] between two masks whose base vectors have one
    size: unmask, bit copy, rebuild. *)
Lemma instantiate_cast_memcpy_remask (kr kt : mask_kind) (nr nt : nat) :
  sizeof (Vector (base_kind kr) nr) = sizeof (Vector (base_kind kt) nt) ->
  instantiate cast_memcpy_remask (Mask kr nr) (Mask kt nt)
  = Compiles (fun t =>
      option_map
        (fun rr => cmp_neq (base_kind kr) nr rr (make_zero (base_kind kr) nr))
        (cast_memcpy_code (Vector (base_kind kr) nr) (unmask kt nt t))).
Proof.
  intros Hs. unfold instantiate at 1. cbn.
  rewrite base_mask_vector_type_mask. cbn [bind_result].
  rewrite (instantiate_cast_memcpy_equal _ _ Hs). cbn [bind_result].
  rewrite rebuild_mask_of_base. reflexivity.
Qed.

Lemma instantiate_cast_memcpy_remask_unequal
  (kr kt : mask_kind) (nr nt : nat) :
  sizeof (Vector (base_kind kr) nr) <> sizeof (Vector (base_kind kt) nt) ->
  instantiate cast_memcpy_remask (Mask kr nr) (Mask kt nt)
  = Rejected ["Size mismatch"].
Proof.
  intros Hs. unfold instantiate at 1. cbn.
  rewrite base_mask_vector_type_mask. cbn [bind_result].
  rewrite (instantiate_cast_memcpy_unequal _ _ Hs). reflexivity.
Qed.
End Rebuild.

(** C5: the rebuilding step of [cast_memcpy_remask] compares the raw vector
    [rr], of the base vector type of the destination mask, lane by lane
    with the all-zero vector of that type; for every [rr] it returns an
    object of the destination mask type whose lane is true exactly where the
    raw value of the lane of [rr] is not zero.  In [cast_memcpy_remask]
    that [rr] is the bit copy of the unmasked source. *)
Theorem rebuild_mask_lanes {A : Arch} (k : mask_kind) (n : nat) (rr : bytes) :
  ArchLaws A ->
  exists rebuild : bytes -> bytes,
    rebuild_mask (Mask k n) (Vector (base_kind k) n) = Some rebuild /\
    rebuild rr = cmp_neq (base_kind k) n rr (make_zero (base_kind k) n) /\
    lanes (lane_bytes (base_kind k)) n (make_zero (base_kind k) n)
    = repeat (repeat x00 (lane_bytes (base_kind k))) n /\
    length (rebuild rr) = sizeof (Mask k n) /\
    mask_lanes k n (rebuild rr)
    = map (fun lane => negb (N.eqb (lane_value lane) 0))
        (lanes (lane_bytes (base_kind k)) n rr) /\
    (forall (i : nat) (lane : bytes),
        nth_error (lanes (lane_bytes (base_kind k)) n rr) i = Some lane ->
        nth_error (mask_lanes k n (rebuild rr)) i
        = Some (negb (N.eqb (lane_value lane) 0))) /\
    (forall (kt : mask_kind) (nt : nat) (t : bytes),
        sizeof (Vector (base_kind k) n) = sizeof (Vector (base_kind kt) nt) ->
        length t = sizeof (Mask kt nt) ->
        exists c : code,
          instantiate cast_memcpy_remask (Mask k n) (Mask kt nt) = Compiles c /\
          c t = Some (rebuild (unmask kt nt t))).
Proof.
  intros HL.
  exists (fun rr => cmp_neq (base_kind k) n rr (make_zero (base_kind k) n)).
  assert (Hlen : length (map lane_nonzero (lanes (lane_bytes (base_kind k)) n rr))
                 = n) by (rewrite length_map; apply lanes_length).
  assert (Hlanes : mask_lanes k n
                     (cmp_neq (base_kind k) n rr (make_zero (base_kind k) n))
                   = map lane_nonzero (lanes (lane_bytes (base_kind k)) n rr)).
  { rewrite cmp_neq_zero. apply (mask_lanes_object A HL). exact Hlen. }
  split; [ apply rebuild_mask_of_base | ].
  split; [ reflexivity | ].
  split; [ apply lanes_zero | ].
  split; [ rewrite cmp_neq_zero; apply (mask_object_size A HL); exact Hlen | ].
  split; [ exact Hlanes | ].
  split.
  - intros i lane Hi. rewrite Hlanes.
    apply (map_nth_error lane_nonzero) in Hi. exact Hi.
  - intros kt nt t Hs Ht.
    eexists. split; [ apply instantiate_cast_memcpy_remask; exact Hs | ].
    cbn beta. rewrite cast_memcpy_code_copies; [ reflexivity | ].
    rewrite (unmask_size A HL kt nt t Ht). symmetry. exact Hs.
Qed.

Lemma rebuild_mask_lanes_witness :
  exists rebuild : bytes -> bytes,
    rebuild_mask (A := vector_masks) (mask_int16 3) (uint16 3) = Some rebuild /\
    mask_lanes (Arch := vector_masks) k_mask_int16 3
      (rebuild [x00; x01; x00; x00; x80; x00])
    = [true; false; true].
Proof.
  destruct (rebuild_mask_lanes (A := vector_masks) k_mask_int16 3
              [x00; x01; x00; x00; x80; x00] vector_masks_laws)
    as (rebuild & Hr & _ & _ & _ & Hl & _).
  exists rebuild. split; [ exact Hr | exact Hl ].
Defined.

(** ** Casts between masks *)

Lemma also_cons {X : Type} (d : diagnostic) (ds : list diagnostic)
  (r : compile_result X) :
  exists ds', also (d :: ds) r = Rejected (d :: ds').
Proof.
  destruct r as [x | ds' | ]; cbn; eexists; reflexivity.
Qed.

Section MaskToMask.
Context {A : Arch} {E : MaskCast}.
Variables (kr kt : mask_kind) (nr nt : nat).

(** The assertion on the size tags, in front of a body. *)
Lemma instantiate_guarded (f : function_template) :
  static_asserts f = [(size_tag_equal param_R param_T, masks_differ)] ->
  instantiate f (Mask kr nr) (Mask kt nt)
  = also (if N.eqb (size_tag (Mask kr nr)) (size_tag (Mask kt nt))
          then [] else [masks_differ])
      (body f (Mask kr nr) (Mask kt nt)).
Proof.
  intros Hf. unfold instantiate. rewrite Hf. cbn.
  destruct (N.eqb (size_tag (Mask kr nr)) (size_tag (Mask kt nt)));
    reflexivity.
Qed.

Lemma guarded_rejects (f : function_template) :
  static_asserts f = [(size_tag_equal param_R param_T, masks_differ)] ->
  size_tag (Mask kr nr) <> size_tag (Mask kt nt) ->
  exists ds,
    instantiate f (Mask kr nr) (Mask kt nt) = Rejected (masks_differ :: ds).
Proof.
  intros Hf Htag. rewrite (instantiate_guarded f Hf).
  apply N.eqb_neq in Htag. rewrite Htag. apply also_cons.
Qed.

Lemma guarded_passes (f : function_template) :
  static_asserts f = [(size_tag_equal param_R param_T, masks_differ)] ->
  size_tag (Mask kr nr) = size_tag (Mask kt nt) ->
  instantiate f (Mask kr nr) (Mask kt nt) = body f (Mask kr nr) (Mask kt nt).
Proof.
  intros Hf Htag. rewrite (instantiate_guarded f Hf).
  apply N.eqb_eq in Htag. rewrite Htag. reflexivity.
Qed.

Hypothesis distinct : enumerators_distinct E.

Lemma run_MEMCPY :
  cast_wrapper_run true true CAST_MASK_MEMCPY (Mask kr nr) (Mask kt nt)
  = instantiate cast_wrapper_true_true_MEMCPY (Mask kr nr) (Mask kt nt).
Proof.
  unfold cast_wrapper_run.
  rewrite (cast_wrapper_MEMCPY_selected distinct). reflexivity.
Qed.

Lemma run_UNMASK :
  cast_wrapper_run true true CAST_MASK_UNMASK (Mask kr nr) (Mask kt nt)
  = instantiate cast_wrapper_true_true_UNMASK (Mask kr nr) (Mask kt nt).
Proof.
  unfold cast_wrapper_run.
  rewrite (cast_wrapper_UNMASK_selected distinct). reflexivity.
Qed.

Lemma run_REMASK :
  cast_wrapper_run true true CAST_MASK_REMASK (Mask kr nr) (Mask kt nt)
  = instantiate cast_wrapper_true_true_REMASK (Mask kr nr) (Mask kt nt).
Proof.
  unfold cast_wrapper_run.
  rewrite (cast_wrapper_REMASK_selected distinct). reflexivity.
Qed.

Hypothesis laws : ArchLaws A.

(** What the three strategies compile to once the size tags agree. *)
Lemma strategies_with_equal_tags :
  size_tag (Mask kr nr) = size_tag (Mask kt nt) ->
  (sizeof (Mask kr nr) = sizeof (Mask kt nt) ->
     exists c : code,
       cast_wrapper_run true true CAST_MASK_MEMCPY (Mask kr nr) (Mask kt nt)
       = Compiles c /\
       forall t, length t = sizeof (Mask kt nt) ->
         exists r, c t = Some r /\ length r = sizeof (Mask kr nr)) /\
  (sizeof (Mask kr nr) <> sizeof (Mask kt nt) ->
     cast_wrapper_run true true CAST_MASK_MEMCPY (Mask kr nr) (Mask kt nt)
     = Rejected ["Size mismatch"]) /\
  (sizeof (Mask kr nr) = sizeof (Vector (base_kind kt) nt) ->
     exists c : code,
       cast_wrapper_run true true CAST_MASK_UNMASK (Mask kr nr) (Mask kt nt)
       = Compiles c /\
       forall t, length t = sizeof (Mask kt nt) ->
         exists r, c t = Some r /\ length r = sizeof (Mask kr nr)) /\
  (sizeof (Mask kr nr) <> sizeof (Vector (base_kind kt) nt) ->
     cast_wrapper_run true true CAST_MASK_UNMASK (Mask kr nr) (Mask kt nt)
     = Rejected ["Size mismatch"]) /\
  (sizeof (Vector (base_kind kr) nr) = sizeof (Vector (base_kind kt) nt) ->
     exists c : code,
       cast_wrapper_run true true CAST_MASK_REMASK (Mask kr nr) (Mask kt nt)
       = Compiles c /\
       forall t, length t = sizeof (Mask kt nt) ->
         exists r, c t = Some r /\ length r = sizeof (Mask kr nr)) /\
  (sizeof (Vector (base_kind kr) nr) <> sizeof (Vector (base_kind kt) nt) ->
     cast_wrapper_run true true CAST_MASK_REMASK (Mask kr nr) (Mask kt nt)
     = Rejected ["Size mismatch"]).
Proof.
  intros Htag.
  rewrite run_MEMCPY, run_UNMASK, run_REMASK.
  rewrite !(fun f Hf => guarded_passes f Hf Htag) by reflexivity.
  cbn [body cast_wrapper_true_true_MEMCPY cast_wrapper_true_true_UNMASK
         cast_wrapper_true_true_REMASK].
  repeat split.
  - intros Hs. exists (cast_memcpy_code (Mask kr nr)).
    split; [ apply instantiate_cast_memcpy_equal; exact Hs | ].
    intros t Ht. exists t.
    split; [ apply cast_memcpy_code_copies | ]; rewrite Hs; exact Ht.
  - apply instantiate_cast_memcpy_unequal.
  - intros Hs. rewrite instantiate_cast_memcpy_unmask.
    rewrite (instantiate_cast_memcpy_equal _ _ Hs).
    eexists. split; [ reflexivity | ].
    intros t Ht. exists (unmask kt nt t). cbn beta.
    assert (Hu : length (unmask kt nt t) = sizeof (Mask kr nr))
      by (rewrite (unmask_size A laws kt nt t Ht); symmetry; exact Hs).
    split; [ apply cast_memcpy_code_copies; exact Hu | exact Hu ].
  - intros Hs. rewrite instantiate_cast_memcpy_unmask.
    rewrite (instantiate_cast_memcpy_unequal _ _ Hs). reflexivity.
  - intros Hs. rewrite (instantiate_cast_memcpy_remask _ _ _ _ Hs).
    eexists. split; [ reflexivity | ].
    intros t Ht. cbn beta.
    rewrite cast_memcpy_code_copies
      by (rewrite (unmask_size A laws kt nt t Ht); symmetry; exact Hs).
    eexists. split; [ reflexivity | ].
    rewrite cmp_neq_zero. apply (mask_object_size A laws).
    rewrite length_map. apply lanes_length.
  - apply instantiate_cast_memcpy_remask_unequal.
Qed.
End MaskToMask.

(** C4 (as amended): between two mask types whose size tags differ, each of
    the three strategies is rejected with "Conversions between masks with
    different element size is not allowed".  With equal size tags a
    strategy compiles exactly when the size assertion of its bit copy holds
    as well (destination and source for the bit-identical copy, destination
    and base vector of the source for the unmask, the two base vectors for
    the remask) and then returns an object of the size of the destination
    type; otherwise it is rejected with "Size mismatch". *)
Theorem mask_to_mask_size_tags {A : Arch} {E : MaskCast}
  (kr kt : mask_kind) (nr nt : nat) :
  enumerators_distinct E ->
  ArchLaws A ->
  (size_tag (Mask kr nr) <> size_tag (Mask kt nt) ->
     (exists ds,
         cast_wrapper_run true true CAST_MASK_MEMCPY (Mask kr nr) (Mask kt nt)
         = Rejected
             ("Conversions between masks with different element size is not allowed"
              :: ds)) /\
     (exists ds,
         cast_wrapper_run true true CAST_MASK_UNMASK (Mask kr nr) (Mask kt nt)
         = Rejected
             ("Conversions between masks with different element size is not allowed"
              :: ds)) /\
     (exists ds,
         cast_wrapper_run true true CAST_MASK_REMASK (Mask kr nr) (Mask kt nt)
         = Rejected
             ("Conversions between masks with different element size is not allowed"
              :: ds))) /\
  (size_tag (Mask kr nr) = size_tag (Mask kt nt) ->
     (sizeof (Mask kr nr) = sizeof (Mask kt nt) ->
        exists c : code,
          cast_wrapper_run true true CAST_MASK_MEMCPY (Mask kr nr) (Mask kt nt)
          = Compiles c /\
          forall t, length t = sizeof (Mask kt nt) ->
            exists r, c t = Some r /\ length r = sizeof (Mask kr nr)) /\
     (sizeof (Mask kr nr) <> sizeof (Mask kt nt) ->
        cast_wrapper_run true true CAST_MASK_MEMCPY (Mask kr nr) (Mask kt nt)
        = Rejected ["Size mismatch"]) /\
     (sizeof (Mask kr nr) = sizeof (Vector (base_kind kt) nt) ->
        exists c : code,
          cast_wrapper_run true true CAST_MASK_UNMASK (Mask kr nr) (Mask kt nt)
          = Compiles c /\
          forall t, length t = sizeof (Mask kt nt) ->
            exists r, c t = Some r /\ length r = sizeof (Mask kr nr)) /\
     (sizeof (Mask kr nr) <> sizeof (Vector (base_kind kt) nt) ->
        cast_wrapper_run true true CAST_MASK_UNMASK (Mask kr nr) (Mask kt nt)
        = Rejected ["Size mismatch"]) /\
     (sizeof (Vector (base_kind kr) nr) = sizeof (Vector (base_kind kt) nt) ->
        exists c : code,
          cast_wrapper_run true true CAST_MASK_REMASK (Mask kr nr) (Mask kt nt)
          = Compiles c /\
          forall t, length t = sizeof (Mask kt nt) ->
            exists r, c t = Some r /\ length r = sizeof (Mask kr nr)) /\
     (sizeof (Vector (base_kind kr) nr) <> sizeof (Vector (base_kind kt) nt) ->
        cast_wrapper_run true true CAST_MASK_REMASK (Mask kr nr) (Mask kt nt)
        = Rejected ["Size mismatch"])).
Proof.
  intros Hd HL. split.
  - intros Htag.
    rewrite (run_MEMCPY kr kt nr nt Hd), (run_UNMASK kr kt nr nt Hd),
      (run_REMASK kr kt nr nt Hd).
    repeat split; apply guarded_rejects; (reflexivity || exact Htag).
  - apply strategies_with_equal_tags; assumption.
Qed.

Lemma mask_to_mask_size_tags_witness :
  (exists ds,
      cast_wrapper_run (A := vector_masks) (E := in_order) true true 2
        (mask_int16 8) (mask_float32 4)
      = Rejected
          ("Conversions between masks with different element size is not allowed"
           :: ds)) /\
  (exists c : code,
      cast_wrapper_run (A := vector_masks) (E := in_order) true true 2
        (mask_int32 4) (mask_float32 4) = Compiles c /\
      forall t, length t = 16 -> exists r, c t = Some r /\ length r = 16).
Proof.
  split.
  - destruct (mask_to_mask_size_tags (A := vector_masks) (E := in_order)
                k_mask_int16 k_mask_float32 8 4
                in_order_distinct vector_masks_laws) as (H & _).
    assert (Htag : size_tag (Arch := vector_masks) (mask_int16 8)
                   <> size_tag (Arch := vector_masks) (mask_float32 4))
      by (intros Heq; discriminate Heq).
    exact (proj2 (proj2 (H Htag))).
  - destruct (mask_to_mask_size_tags (A := vector_masks) (E := in_order)
                k_mask_int32 k_mask_float32 4 4
                in_order_distinct vector_masks_laws) as (_ & H).
    destruct (H eq_refl) as (_ & _ & _ & _ & Hre & _).
    exact (Hre eq_refl).
Defined.

(** C4, the claim as stated, fails: two mask types with equal size tags need
    not compile under every strategy.  Where masks are stored as vectors,
    masks of four and of eight 32-bit lanes share a size tag and differ in
    size; where masks are stored packed, the unmask strategy copies a base
    vector into a mask of another size. *)
Lemma equal_size_tags_do_not_suffice :
  size_tag (Arch := vector_masks) (mask_int32 4)
  = size_tag (Arch := vector_masks) (mask_float32 8) /\
  cast_wrapper_run (A := vector_masks) (E := in_order) true true
    (CAST_MASK_MEMCPY (MaskCast := in_order)) (mask_int32 4) (mask_float32 8)
  = Rejected ["Size mismatch"] /\
  cast_wrapper_run (A := vector_masks) (E := in_order) true true
    (CAST_MASK_UNMASK (MaskCast := in_order)) (mask_int32 4) (mask_float32 8)
  = Rejected ["Size mismatch"] /\
  cast_wrapper_run (A := vector_masks) (E := in_order) true true
    (CAST_MASK_REMASK (MaskCast := in_order)) (mask_int32 4) (mask_float32 8)
  = Rejected ["Size mismatch"] /\
  size_tag (Arch := packed_masks) (mask_int32 4)
  = size_tag (Arch := packed_masks) (mask_float32 4) /\
  cast_wrapper_run (A := packed_masks) (E := in_order) true true
    (CAST_MASK_UNMASK (MaskCast := in_order)) (mask_int32 4) (mask_float32 4)
  = Rejected ["Size mismatch"].
Proof. repeat split. Qed.

(** C6: for every mask type [M] and every value [m] of [M], casting [m] to
    the base vector type of [M] and rebuilding the mask from that vector (the
    remask: comparison with zero) yields a mask with the true/false pattern
    of [m]; and so does the remask cast from [M] to [M], which does the
    same in one step: unmask, bit copy, rebuild. *)
Theorem remask_round_trip {A : Arch} {E : MaskCast}
  (MaskCastOverride : N) (k : mask_kind) (n : nat) (m : bytes) :
  enumerators_distinct E ->
  ArchLaws A ->
  length m = sizeof (Mask k n) ->
  (exists (c : code) (r : bytes),
      cast_wrapper_run true true CAST_MASK_REMASK (Mask k n) (Mask k n)
      = Compiles c /\
      c m = Some r /\
      length r = sizeof (Mask k n) /\
      mask_lanes k n r = mask_lanes k n m) /\
  (exists (c : code) (v : bytes) (rebuild : bytes -> bytes),
      cast_wrapper_run false true MaskCastOverride
        (Vector (base_kind k) n) (Mask k n) = Compiles c /\
      c m = Some v /\
      rebuild_mask (Mask k n) (Vector (base_kind k) n) = Some rebuild /\
      mask_lanes k n (rebuild v) = mask_lanes k n m).
Proof.
  intros Hd HL Hm.
  assert (Hrebuilt :
            mask_lanes k n
              (cmp_neq (base_kind k) n (unmask k n m) (make_zero (base_kind k) n))
            = mask_lanes k n m).
  { rewrite cmp_neq_zero.
    rewrite (mask_lanes_object A HL)
      by (rewrite length_map; apply lanes_length).
    apply (unmask_lanes A HL). exact Hm. }
  assert (Hcopy : cast_memcpy_code (Vector (base_kind k) n) (unmask k n m)
                  = Some (unmask k n m))
    by (apply cast_memcpy_code_copies, (unmask_size A HL); exact Hm).
  split.
  - rewrite (run_REMASK k k n n Hd).
    rewrite guarded_passes by reflexivity.
    cbn [body cast_wrapper_true_true_REMASK].
    rewrite (instantiate_cast_memcpy_remask k k n n eq_refl).
    eexists. eexists. split; [ reflexivity | ]. cbn beta.
    rewrite Hcopy. split; [ reflexivity | ].
    split; [ | exact Hrebuilt ].
    rewrite cmp_neq_zero. apply (mask_object_size A HL).
    rewrite length_map. apply lanes_length.
  - exists (fun t => cast_memcpy_code (Vector (base_kind k) n) (unmask k n t)),
      (unmask k n m),
      (fun rr => cmp_neq (base_kind k) n rr (make_zero (base_kind k) n)).
    split.
    { unfold cast_wrapper_run. rewrite cast_wrapper_false_true_selected.
      rewrite instantiate_cast_memcpy_unmask.
      rewrite (instantiate_cast_memcpy_equal _ _ eq_refl). reflexivity. }
    split; [ exact Hcopy | ].
    split; [ apply rebuild_mask_of_base | exact Hrebuilt ].
Qed.

Lemma remask_round_trip_witness :
  exists (c : code) (r : bytes),
    cast_wrapper_run (A := packed_masks) (E := in_order) true true 2
      (mask_int32 8) (mask_int32 8) = Compiles c /\
    c [x01; x00; x01; x01; x00; x00; x01; x00] = Some r /\
    mask_lanes (Arch := packed_masks) k_mask_int32 8 r
    = [true; false; true; true; false; false; true; false].
Proof.
  destruct (remask_round_trip (A := packed_masks) (E := in_order) 0
              k_mask_int32 8 [x01; x00; x01; x01; x00; x00; x01; x00]
              in_order_distinct packed_masks_laws eq_refl)
    as ((c & r & Hc & Hr & _ & Hl) & _).
  exists c, r. split; [ exact Hc | ]. split; [ exact Hr | exact Hl ].
Defined.

(** The way back in that round trip is the rebuilding step and not a cast
    of its own: the cast of a mask to its base vector compiles, and a cast
    of that vector to the mask type is a cast from a non-mask type to a mask
    type, rejected with the remask strategy as with every other. *)
Lemma remask_of_a_vector_is_rejected :
  (exists c : code,
      cast_wrapper_run (A := vector_masks) (E := in_order) false true
        (CAST_MASK_REMASK (MaskCast := in_order)) (uint32 4) (mask_int32 4)
      = Compiles c) /\
  cast_wrapper_run (A := vector_masks) (E := in_order) true false
    (CAST_MASK_REMASK (MaskCast := in_order)) (mask_int32 4) (uint32 4)
  = Rejected ["Conversion from non-mask type to a mask type is not allowed"].
Proof.
  split; [ eexists; reflexivity | reflexivity ].
Qed.

(** * Further properties of the header *)

(** ** The bit copy out of its precondition, and chains of casts *)

(** X12: the code of [cast_memcpy<R>] (lines 40-42) copies exactly
    [sizeof(R)] bytes: on a source at least that long it returns the first
    [sizeof(R)] bytes of it, an object of the size of [R], and leaves the
    source as it was; on a shorter source the copy reads out of bounds.  The
    size assertion is what excludes both the truncation and the overrun. *)
Theorem cast_memcpy_copies_sizeof_R {A : Arch} (R : type) (t : bytes) :
  (sizeof R <= length t ->
     cast_memcpy_code R t = Some (firstn (sizeof R) t) /\
     length (firstn (sizeof R) t) = sizeof R /\
     option_map arg_t (cast_memcpy_exec R t) = Some t) /\
  (length t < sizeof R -> cast_memcpy_code R t = None).
Proof.
  unfold cast_memcpy_code, cast_memcpy_exec, memcpy_r_t. cbn [local_r arg_t].
  rewrite declare_length, Nat.leb_refl, andb_true_r.
  split.
  - intros Hle. apply Nat.leb_le in Hle as Hb. rewrite Hb. cbn.
    rewrite <- (declare_length R) at 2. rewrite skipn_all, app_nil_r.
    split; [ reflexivity | ]. split; [ | reflexivity ].
    apply firstn_length_le. exact Hle.
  - intros Hlt. apply Nat.leb_gt in Hlt. rewrite Hlt. reflexivity.
Qed.

Lemma run_false_false {A : Arch} {E : MaskCast} (k : N) (R T : type) :
  cast_wrapper_run false false k R T = instantiate cast_memcpy R T.
Proof. reflexivity. Qed.

Lemma run_false_true {A : Arch} {E : MaskCast} (k : N) (R T : type) :
  cast_wrapper_run false true k R T = instantiate cast_memcpy_unmask R T.
Proof. reflexivity. Qed.

(** X1: casts between non-mask types of one size compose: casting a value
    of [Ta] to [Tb] and the result to [Tc] is the cast of the value to [Tc]
    in one step, and all three return the bytes of the value (lines 116-123
    with 36-43). *)
Theorem vector_casts_compose {A : Arch} {E : MaskCast}
  (k1 k2 k3 : N) (Ta Tb Tc : type) (a : bytes) :
  sizeof Ta = sizeof Tb ->
  sizeof Tb = sizeof Tc ->
  length a = sizeof Ta ->
  exists ab bc ac : code,
    cast_wrapper_run false false k1 Tb Ta = Compiles ab /\
    cast_wrapper_run false false k2 Tc Tb = Compiles bc /\
    cast_wrapper_run false false k3 Tc Ta = Compiles ac /\
    sequence ab bc a = ac a /\
    ac a = Some a.
Proof.
  intros Hab Hbc Ha.
  exists (cast_memcpy_code Tb), (cast_memcpy_code Tc), (cast_memcpy_code Tc).
  rewrite !run_false_false.
  split; [ apply instantiate_cast_memcpy_equal; symmetry; exact Hab | ].
  split; [ apply instantiate_cast_memcpy_equal; symmetry; exact Hbc | ].
  split; [ apply instantiate_cast_memcpy_equal; congruence | ].
  assert (Hc : cast_memcpy_code Tc a = Some a)
    by (apply cast_memcpy_code_copies; congruence).
  split; [ | exact Hc ].
  unfold sequence. rewrite (cast_memcpy_code_copies Tb a) by congruence.
  reflexivity.
Qed.

Lemma vector_casts_compose_witness :
  exists ab bc ac : code,
    cast_wrapper_run (A := vector_masks) (E := in_order) false false 0
      (uint16 4) (uint8 8) = Compiles ab /\
    cast_wrapper_run (A := vector_masks) (E := in_order) false false 1
      (float64 1) (uint16 4) = Compiles bc /\
    cast_wrapper_run (A := vector_masks) (E := in_order) false false 2
      (float64 1) (uint8 8) = Compiles ac /\
    sequence ab bc [x01; x02; x03; x04; x05; x06; x07; x08]
    = ac [x01; x02; x03; x04; x05; x06; x07; x08] /\
    ac [x01; x02; x03; x04; x05; x06; x07; x08]
    = Some [x01; x02; x03; x04; x05; x06; x07; x08].
Proof.
  exact (vector_casts_compose (A := vector_masks) (E := in_order) 0 1 2
           (uint8 8) (uint16 4) (float64 1)
           [x01; x02; x03; x04; x05; x06; x07; x08]
           eq_refl eq_refl eq_refl).
Defined.

(** X2: a cast from a mask to a non-mask type followed by a cast to another
    non-mask type of that size is the cast from the mask to the second type
    in one step: both return [unmask()] of the mask (lines 107-123 with
    45-51). *)
Theorem mask_to_vector_then_vector {A : Arch} {E : MaskCast}
  (k1 k2 k3 : N) (k : mask_kind) (n : nat) (Va Vb : type) (m : bytes) :
  ArchLaws A ->
  length m = sizeof (Mask k n) ->
  sizeof Va = sizeof (Vector (base_kind k) n) ->
  sizeof Vb = sizeof Va ->
  exists ma ab mb : code,
    cast_wrapper_run false true k1 Va (Mask k n) = Compiles ma /\
    cast_wrapper_run false false k2 Vb Va = Compiles ab /\
    cast_wrapper_run false true k3 Vb (Mask k n) = Compiles mb /\
    sequence ma ab m = mb m /\
    mb m = Some (unmask k n m).
Proof.
  intros HL Hm Ha Hb.
  pose proof (unmask_size A HL k n m Hm) as Hu.
  exists (fun t => cast_memcpy_code Va (unmask k n t)),
    (cast_memcpy_code Vb),
    (fun t => cast_memcpy_code Vb (unmask k n t)).
  rewrite !run_false_true, run_false_false, !instantiate_cast_memcpy_unmask.
  split; [ rewrite (instantiate_cast_memcpy_equal _ _ Ha); reflexivity | ].
  split; [ apply instantiate_cast_memcpy_equal; exact Hb | ].
  split.
  { rewrite (instantiate_cast_memcpy_equal Vb (Vector (base_kind k) n))
      by congruence.
    reflexivity. }
  assert (Hmb : cast_memcpy_code Vb (unmask k n m) = Some (unmask k n m))
    by (apply cast_memcpy_code_copies; congruence).
  split; [ | exact Hmb ].
  unfold sequence.
  rewrite (cast_memcpy_code_copies Va (unmask k n m)) by congruence.
  reflexivity.
Qed.

Lemma mask_to_vector_then_vector_witness :
  exists ma ab mb : code,
    cast_wrapper_run (A := packed_masks) (E := in_order) false true 0
      (uint16 2) (mask_int16 2) = Compiles ma /\
    cast_wrapper_run (A := packed_masks) (E := in_order) false false 0
      (float32 1) (uint16 2) = Compiles ab /\
    cast_wrapper_run (A := packed_masks) (E := in_order) false true 0
      (float32 1) (mask_int16 2) = Compiles mb /\
    sequence ma ab [x00; x01] = mb [x00; x01] /\
    mb [x00; x01] = Some [x00; x00; xff; xff].
Proof.
  exact (mask_to_vector_then_vector (A := packed_masks) (E := in_order)
           0 0 0 k_mask_int16 2 (uint16 2) (float32 1) [x00; x01]
           packed_masks_laws eq_refl eq_refl eq_refl).
Defined.

(** X3: unless both mask flags are true the strategy flag has no part in
    the cast: the three partial specialisations (lines 97-123) leave
    [MaskCastOverride] open, so two values of it select the same
    specialisation and give the same instantiation. *)
Theorem strategy_flag_ignored {A : Arch} {E : MaskCast}
  (IsRMask IsLMask : bool) (k1 k2 : N) (R T : type) :
  IsRMask && IsLMask = false ->
  matching cast_wrapper_specializations (IsRMask, IsLMask, k1)
  = matching cast_wrapper_specializations (IsRMask, IsLMask, k2) /\
  cast_wrapper_run IsRMask IsLMask k1 R T
  = cast_wrapper_run IsRMask IsLMask k2 R T.
Proof.
  intros H. destruct IsRMask, IsLMask; try discriminate H; split; reflexivity.
Qed.

Lemma strategy_flag_ignored_witness :
  matching (cast_wrapper_specializations (A := vector_masks) (E := in_order))
    (false, true, 0%N)
  = matching (cast_wrapper_specializations (A := vector_masks) (E := in_order))
      (false, true, 77%N) /\
  cast_wrapper_run (A := vector_masks) (E := in_order) false true 0
    (uint32 4) (mask_float32 4)
  = cast_wrapper_run (A := vector_masks) (E := in_order) false true 77
      (uint32 4) (mask_float32 4).
Proof.
  exact (strategy_flag_ignored (A := vector_masks) (E := in_order)
           false true 0 77 (uint32 4) (mask_float32 4) eq_refl).
Defined.

(** ** The diagnostics of a rejected cast *)

Section Rejections.
Context {A : Arch}.




End Rejections.





(** ** What the three strategies return between masks *)

(** X6: with equal size tags and equal sizes the bit-identical strategy
    returns the bytes of the source mask unchanged, in both directions, so
    that the cast there and back is the identity on the object (lines 61-71
    with 36-43). *)
Theorem mask_memcpy_round_trip {A : Arch} {E : MaskCast}
  (kr kt : mask_kind) (nr nt : nat) (t : bytes) :
  enumerators_distinct E ->
  size_tag (Mask kr nr) = size_tag (Mask kt nt) ->
  sizeof (Mask kr nr) = sizeof (Mask kt nt) ->
  length t = sizeof (Mask kt nt) ->
  exists there back : code,
    cast_wrapper_run true true CAST_MASK_MEMCPY (Mask kr nr) (Mask kt nt)
    = Compiles there /\
    cast_wrapper_run true true CAST_MASK_MEMCPY (Mask kt nt) (Mask kr nr)
    = Compiles back /\
    there t = Some t /\
    sequence there back t = Some t.
Proof.
  intros Hd Htag Hs Ht.
  exists (cast_memcpy_code (Mask kr nr)), (cast_memcpy_code (Mask kt nt)).
  rewrite (run_MEMCPY kr kt nr nt Hd), (run_MEMCPY kt kr nt nr Hd).
  rewrite (guarded_passes kr kt nr nt cast_wrapper_true_true_MEMCPY
             eq_refl Htag).
  rewrite (guarded_passes kt kr nt nr cast_wrapper_true_true_MEMCPY
             eq_refl (eq_sym Htag)).
  cbn [body cast_wrapper_true_true_MEMCPY].
  split; [ apply instantiate_cast_memcpy_equal; exact Hs | ].
  split; [ apply instantiate_cast_memcpy_equal; symmetry; exact Hs | ].
  assert (Hthere : cast_memcpy_code (Mask kr nr) t = Some t)
    by (apply cast_memcpy_code_copies; congruence).
  split; [ exact Hthere | ].
  unfold sequence. rewrite Hthere. apply cast_memcpy_code_copies. exact Ht.
Qed.

Lemma mask_memcpy_round_trip_witness :
  exists there back : code,
    cast_wrapper_run (A := vector_masks) (E := in_order) true true 0
      (mask_int32 1) (mask_float32 1) = Compiles there /\
    cast_wrapper_run (A := vector_masks) (E := in_order) true true 0
      (mask_float32 1) (mask_int32 1) = Compiles back /\
    there [xff; xff; xff; xff] = Some [xff; xff; xff; xff] /\
    sequence there back [xff; xff; xff; xff] = Some [xff; xff; xff; xff].
Proof.
  exact (mask_memcpy_round_trip (A := vector_masks) (E := in_order)
           k_mask_int32 k_mask_float32 1 1 [xff; xff; xff; xff]
           in_order_distinct eq_refl eq_refl eq_refl).
Defined.

(** X7: the unmask strategy between masks does not rebuild anything: where
    it compiles, the object it returns as the destination mask holds the
    bytes of [unmask()] of the source (lines 73-83 with 45-51). *)
Theorem mask_unmask_returns_base_bytes {A : Arch} {E : MaskCast}
  (kr kt : mask_kind) (nr nt : nat) (t : bytes) :
  enumerators_distinct E ->
  ArchLaws A ->
  size_tag (Mask kr nr) = size_tag (Mask kt nt) ->
  sizeof (Mask kr nr) = sizeof (Vector (base_kind kt) nt) ->
  length t = sizeof (Mask kt nt) ->
  exists c : code,
    cast_wrapper_run true true CAST_MASK_UNMASK (Mask kr nr) (Mask kt nt)
    = Compiles c /\
    c t = Some (unmask kt nt t).
Proof.
  intros Hd HL Htag Hs Ht.
  exists (fun t => cast_memcpy_code (Mask kr nr) (unmask kt nt t)).
  rewrite (run_UNMASK kr kt nr nt Hd).
  rewrite (guarded_passes kr kt nr nt cast_wrapper_true_true_UNMASK
             eq_refl Htag).
  cbn [body cast_wrapper_true_true_UNMASK].
  rewrite instantiate_cast_memcpy_unmask.
  rewrite (instantiate_cast_memcpy_equal _ _ Hs).
  split; [ reflexivity | ].
  apply cast_memcpy_code_copies.
  rewrite (unmask_size A HL kt nt t Ht). symmetry. exact Hs.
Qed.

Lemma mask_unmask_returns_base_bytes_witness :
  exists c : code,
    cast_wrapper_run (A := vector_masks) (E := in_order) true true 1
      (mask_int16 2) (mask_int16 2) = Compiles c /\
    c [xff; xff; x00; x00] = Some [xff; xff; x00; x00].
Proof.
  exact (mask_unmask_returns_base_bytes (A := vector_masks) (E := in_order)
           k_mask_int16 k_mask_int16 2 2 [xff; xff; x00; x00]
           in_order_distinct vector_masks_laws eq_refl eq_refl eq_refl).
Defined.

(** X10: the remask strategy carries the true/false pattern across mask
    kinds: between two masks of the same number of lanes whose base vectors
    have lanes of one size, it compiles and returns a mask of the
    destination kind with the pattern of the source (lines 85-95 with
    53-59). *)
Theorem remask_across_kinds {A : Arch} {E : MaskCast}
  (kr kt : mask_kind) (n : nat) (t : bytes) :
  enumerators_distinct E ->
  ArchLaws A ->
  size_tag (Mask kr n) = size_tag (Mask kt n) ->
  lane_bytes (base_kind kr) = lane_bytes (base_kind kt) ->
  length t = sizeof (Mask kt n) ->
  exists (c : code) (r : bytes),
    cast_wrapper_run true true CAST_MASK_REMASK (Mask kr n) (Mask kt n)
    = Compiles c /\
    c t = Some r /\
    length r = sizeof (Mask kr n) /\
    mask_lanes kr n r = mask_lanes kt n t.
Proof.
  intros Hd HL Htag Hw Ht.
  assert (Hs : sizeof (Vector (base_kind kr) n)
               = sizeof (Vector (base_kind kt) n))
    by (rewrite !(sizeof_vector A HL), Hw; reflexivity).
  rewrite (run_REMASK kr kt n n Hd).
  rewrite (guarded_passes kr kt n n cast_wrapper_true_true_REMASK
             eq_refl Htag).
  cbn [body cast_wrapper_true_true_REMASK].
  rewrite (instantiate_cast_memcpy_remask kr kt n n Hs).
  eexists. eexists. split; [ reflexivity | ]. cbn beta.
  rewrite cast_memcpy_code_copies
    by (rewrite (unmask_size A HL kt n t Ht); symmetry; exact Hs).
  split; [ reflexivity | ].
  rewrite cmp_neq_zero.
  assert (Hlen : length (map lane_nonzero
                           (lanes (lane_bytes (base_kind kr)) n
                              (unmask kt n t))) = n)
    by (rewrite length_map; apply lanes_length).
  split; [ apply (mask_object_size A HL); exact Hlen | ].
  rewrite (mask_lanes_object A HL) by exact Hlen.
  rewrite Hw. apply (unmask_lanes A HL). exact Ht.
Qed.

Lemma remask_across_kinds_witness :
  exists (c : code) (r : bytes),
    cast_wrapper_run (A := vector_masks) (E := in_order) true true 2
      (mask_int32 8) (mask_float32 8) = Compiles c /\
    c ([xff; xff; xff; xff] ++ [x00; x00; x00; x00] ++ [xff; xff; xff; xff]
       ++ [xff; xff; xff; xff] ++ [x00; x00; x00; x00]
       ++ [x00; x00; x00; x00] ++ [xff; xff; xff; xff]
       ++ [x00; x00; x00; x00]) = Some r /\
    mask_lanes (Arch := vector_masks) k_mask_int32 8 r
    = [true; false; true; true; false; false; true; false].
Proof.
  destruct (remask_across_kinds (A := vector_masks) (E := in_order)
              k_mask_int32 k_mask_float32 8
              ([xff; xff; xff; xff] ++ [x00; x00; x00; x00]
               ++ [xff; xff; xff; xff] ++ [xff; xff; xff; xff]
               ++ [x00; x00; x00; x00] ++ [x00; x00; x00; x00]
               ++ [xff; xff; xff; xff] ++ [x00; x00; x00; x00])
              in_order_distinct vector_masks_laws eq_refl eq_refl eq_refl)
    as (c & r & Hc & Hr & _ & Hl).
  exists c, r. split; [ exact Hc | ]. split; [ exact Hr | exact Hl ].
Defined.

(** X11: the remask cast of a mask type to itself normalises the object: it
    returns the architecture's mask object for the pattern of the source,
    so it depends on the source through its pattern only, and applied to
    its own result it returns that result (lines 85-95 with 53-59). *)
Theorem remask_normalises {A : Arch} {E : MaskCast}
  (k : mask_kind) (n : nat) (m : bytes) :
  enumerators_distinct E ->
  ArchLaws A ->
  length m = sizeof (Mask k n) ->
  exists c : code,
    cast_wrapper_run true true CAST_MASK_REMASK (Mask k n) (Mask k n)
    = Compiles c /\
    c m = Some (mask_object k n (mask_lanes k n m)) /\
    sequence c c m = c m /\
    (forall m' : bytes,
        length m' = sizeof (Mask k n) ->
        mask_lanes k n m' = mask_lanes k n m -> c m' = c m).
Proof.
  intros Hd HL Hm.
  rewrite (run_REMASK k k n n Hd).
  rewrite (guarded_passes k k n n cast_wrapper_true_true_REMASK
             eq_refl eq_refl).
  cbn [body cast_wrapper_true_true_REMASK].
  rewrite (instantiate_cast_memcpy_remask k k n n eq_refl).
  eexists. split; [ reflexivity | ]. cbn beta.
  assert (Hrun : forall x : bytes,
             length x = sizeof (Mask k n) ->
             option_map
               (fun rr => cmp_neq (base_kind k) n rr (make_zero (base_kind k) n))
               (cast_memcpy_code (Vector (base_kind k) n) (unmask k n x))
             = Some (mask_object k n (mask_lanes k n x))).
  { intros x Hx.
    rewrite cast_memcpy_code_copies by (apply (unmask_size A HL); exact Hx).
    cbn [option_map]. rewrite cmp_neq_zero, (unmask_lanes A HL k n x Hx).
    reflexivity. }
  assert (Hn : length (mask_lanes k n m) = n).
  { rewrite <- (unmask_lanes A HL k n m Hm), length_map. apply lanes_length. }
  split; [ apply Hrun; exact Hm | ].
  split.
  - unfold sequence. rewrite (Hrun m Hm).
    rewrite Hrun by (apply (mask_object_size A HL); exact Hn).
    rewrite (mask_lanes_object A HL) by exact Hn. reflexivity.
  - intros m' Hm' Hp. rewrite (Hrun m' Hm'), (Hrun m Hm), Hp. reflexivity.
Qed.

Lemma remask_normalises_witness :
  exists c : code,
    cast_wrapper_run (A := packed_masks) (E := in_order) true true 2
      (mask_int16 3) (mask_int16 3) = Compiles c /\
    c [x07; x00; xff] = Some [x01; x00; x01] /\
    sequence c c [x07; x00; xff] = c [x07; x00; xff].
Proof.
  destruct (remask_normalises (A := packed_masks) (E := in_order)
              k_mask_int16 3 [x07; x00; xff]
              in_order_distinct packed_masks_laws eq_refl)
    as (c & Hc & Hr & Hi & _).
  exists c. split; [ exact Hc | ]. split; [ exact Hr | exact Hi ].
Defined.

(** ** The lookup of the base vector type, once more *)

(** X8: whatever the type, the lookup never yields one of the six mask
    types, and looking up its result changes nothing: the result is a type
    that [cast_memcpy] may copy as raw storage (lines 24-30). *)
Theorem base_mask_vector_type_is_not_a_mask (T B : type) :
  base_mask_vector_type T = Compiles B ->
  (forall k n, B <> Mask k n) /\
  base_mask_vector_type B = Compiles B.
Proof.
  rewrite base_mask_vector_type_compiles. intros H. injection H as <-.
  destruct T as [k n | k n | name]; split;
    try reflexivity; intros k' n' H; discriminate H.
Qed.

Lemma base_mask_vector_type_is_not_a_mask_witness :
  (forall k n, uint64 2 <> Mask k n) /\
  base_mask_vector_type (uint64 2) = Compiles (uint64 2).
Proof.
  exact (base_mask_vector_type_is_not_a_mask (mask_int64 2) (uint64 2)
           eq_refl).
Defined.

(** X9: the six specialisations keep mask types apart and keep the number
    of lanes: two mask types with one base vector type are the same mask
    type, and the base vector of a mask of [n] lanes has [n] lanes (lines
    25-30). *)
Theorem base_mask_vector_type_injective
  (k k' : mask_kind) (n n' : nat) :
  base_mask_vector_type (Mask k n) = base_mask_vector_type (Mask k' n') ->
  Mask k n = Mask k' n' /\
  exists v, base_mask_vector_type (Mask k n) = Compiles (Vector v n).
Proof.
  rewrite !base_mask_vector_type_mask. intros H. injection H as Hk ->.
  split; [ | eexists; reflexivity ].
  destruct k, k'; try discriminate Hk; reflexivity.
Qed.

Lemma base_mask_vector_type_injective_witness :
  Mask k_mask_float32 4 = Mask k_mask_float32 4 /\
  exists v,
    base_mask_vector_type (Mask k_mask_float32 4) = Compiles (Vector v 4).
Proof.
  exact (base_mask_vector_type_injective k_mask_float32 k_mask_float32 4 4
           eq_refl).
Defined.
